(** * trado: services.toml to docker-compose.yml

    A shallow embedding of [trado.py] and the properties of its
    transformation engine.

    Conventions of the embedding.
    - A Python [str] is a [string]; a character stands for a code point
      below 256, so the character classes used by [str.strip],
      [str.lower] and [repr] are those of Latin-1.
    - A value produced by the TOML parser is a [value]: a string, an
      integer, a boolean, a list or a table.  Floats and date-times are
      left out.
    - A [dict] is an association list in insertion order, with the
      update-in-place / append-at-end behaviour of Python dictionaries.
    - A computation that may raise is an [outcome]; [x <- c ;; k]
      sequences two of them. *)

From Stdlib Require Import ZArith String Ascii List Bool DecimalString Lia.
Import ListNotations.
Open Scope list_scope.
Open Scope string_scope.

(** ** Python runtime *)

Module Py.

(** *** Strings *)

Definition code (c : ascii) : nat := nat_of_ascii c.

Definition between (lo hi n : nat) : bool := (lo <=? n)%nat && (n <=? hi)%nat.

(** [c.isspace()] for a code point below 256. *)
Definition isspace (c : ascii) : bool :=
  let n := code c in
  between 9 13 n || between 28 32 n || (n =? 133)%nat || (n =? 160)%nat.

(** [c.lower()] for a code point below 256. *)
Definition lower_char (c : ascii) : ascii :=
  let n := code c in
  if between 65 90 n || (between 192 222 n && negb (n =? 215)%nat)
  then ascii_of_nat (n + 32) else c.

(** [s.lower()] *)
Fixpoint lower (s : string) : string :=
  match s with
  | EmptyString => EmptyString
  | String c s' => String (lower_char c) (lower s')
  end.

(** [s.lstrip()] *)
Fixpoint lstrip (s : string) : string :=
  match s with
  | EmptyString => EmptyString
  | String c s' => if isspace c then lstrip s' else s
  end.

(** [s.rstrip()] *)
Fixpoint rstrip (s : string) : string :=
  match s with
  | EmptyString => EmptyString
  | String c s' =>
      match rstrip s' with
      | EmptyString => if isspace c then EmptyString else String c EmptyString
      | r => String c r
      end
  end.

(** [s.strip()] *)
Definition strip (s : string) : string := rstrip (lstrip s).

(** [sub in s] for two strings. *)
Fixpoint contains (sub s : string) : bool :=
  String.prefix sub s ||
  match s with
  | EmptyString => false
  | String _ s' => contains sub s'
  end.

(** The two halves of [s] around the first occurrence of [sep]. *)
Fixpoint cut_first (sep : ascii) (s : string) : option (string * string) :=
  match s with
  | EmptyString => None
  | String c s' =>
      if Ascii.eqb c sep then Some (EmptyString, s')
      else match cut_first sep s' with
           | Some (l, r) => Some (String c l, r)
           | None => None
           end
  end.

(** The two halves of [s] around the last occurrence of [sep]. *)
Fixpoint cut_last (sep : ascii) (s : string) : option (string * string) :=
  match s with
  | EmptyString => None
  | String c s' =>
      match cut_last sep s' with
      | Some (l, r) => Some (String c l, r)
      | None => if Ascii.eqb c sep then Some (EmptyString, s') else None
      end
  end.

(** [s.split(sep, 1)] for a one-character separator. *)
Definition split1 (sep : ascii) (s : string) : list string :=
  match cut_first sep s with
  | Some (l, r) => [l; r]
  | None => [s]
  end.

(** [s.rsplit(sep, 1)] for a one-character separator. *)
Definition rsplit1 (sep : ascii) (s : string) : list string :=
  match cut_last sep s with
  | Some (l, r) => [l; r]
  | None => [s]
  end.

(** [sep.join(l)] *)
Fixpoint join (sep : string) (l : list string) : string :=
  match l with
  | [] => EmptyString
  | [s] => s
  | s :: l' => s ++ sep ++ join sep l'
  end.

Definition nl : string := String "010"%char EmptyString.

(** [str(z)] for an integer. *)
Definition str_int (z : Z) : string := NilZero.string_of_int (Z.to_int z).

Definition hex_digit (n : nat) : ascii :=
  nth n (list_ascii_of_string "0123456789abcdef") "0"%char.

Definition squote : ascii := "'"%char.
Definition dquote : ascii := "034"%char.
Definition backslash : ascii := "\"%char.

(** [c.isprintable()] for a code point below 256. *)
Definition isprintable (c : ascii) : bool :=
  let n := code c in
  between 32 126 n || (between 161 255 n && negb (n =? 173)%nat).

(** One character of [repr(s)], inside the quotes [q]. *)
Definition repr_char (q c : ascii) : string :=
  let n := code c in
  if Ascii.eqb c backslash then String backslash (String backslash EmptyString)
  else if Ascii.eqb c q then String backslash (String q EmptyString)
  else if (n =? 9)%nat then String backslash "t"
  else if (n =? 10)%nat then String backslash "n"
  else if (n =? 13)%nat then String backslash "r"
  else if isprintable c then String c EmptyString
  else String backslash
         (String "x" (String (hex_digit (n / 16)) (String (hex_digit (n mod 16)) EmptyString))).

Fixpoint repr_chars (q : ascii) (s : string) : string :=
  match s with
  | EmptyString => EmptyString
  | String c s' => repr_char q c ++ repr_chars q s'
  end.

Fixpoint has_char (c : ascii) (s : string) : bool :=
  match s with
  | EmptyString => false
  | String c' s' => Ascii.eqb c' c || has_char c s'
  end.

(** [repr(s)] for a string: single quotes, unless the string holds a
    single quote and no double quote. *)
Definition repr_str (s : string) : string :=
  let q := if has_char squote s && negb (has_char dquote s) then dquote else squote in
  String q (repr_chars q s ++ String q EmptyString).

(** *** Values *)

#[local] Set Warnings "-register-all".

Inductive value : Type :=
| VStr (s : string)
| VInt (z : Z)
| VBool (b : bool)
| VList (l : list value)
| VDict (d : list (string * value)).

Definition dict : Type := list (string * value).

(** [repr(v)] *)
Fixpoint repr (v : value) : string :=
  match v with
  | VStr s => repr_str s
  | VInt z => str_int z
  | VBool b => if b then "True" else "False"
  | VList l => "[" ++ join ", " (map repr l) ++ "]"
  | VDict d =>
      "{" ++ join ", " (map (fun kv => repr_str (fst kv) ++ ": " ++ repr (snd kv)) d) ++ "}"
  end.

(** [str(v)], which is also what an f-string field [{v}] renders. *)
Definition str (v : value) : string :=
  match v with
  | VStr s => s
  | _ => repr v
  end.

(** [bool(v)] *)
Definition truthy (v : value) : bool :=
  match v with
  | VStr s => negb (s =? "")
  | VInt z => negb (z =? 0)%Z
  | VBool b => b
  | VList l => match l with [] => false | _ => true end
  | VDict d => match d with [] => false | _ => true end
  end.

Definition is_str (v : value) : bool :=
  match v with VStr _ => true | _ => false end.

Definition is_list (v : value) : bool :=
  match v with VList _ => true | _ => false end.

Definition is_dict (v : value) : bool :=
  match v with VDict _ => true | _ => false end.

(** [v == s] for a string [s]. *)
Definition eq_str (s : string) (v : value) : bool :=
  match v with VStr s' => s' =? s | _ => false end.

(** *** Exceptions *)

Inductive exn : Type :=
| TradoException (msg : string)
| AttributeError
| TypeError
| KeyError
| ValueError
| YAMLError
| SystemExit (status : Z).

Inductive outcome (A : Type) : Type :=
| Return (a : A)
| Raise (e : exn).

Arguments Return {A} a.
Arguments Raise {A} e.

Definition bind {A B : Type} (c : outcome A) (k : A -> outcome B) : outcome B :=
  match c with
  | Return a => k a
  | Raise e => Raise e
  end.

(** *** Dictionaries *)

(** [k in d] *)
Fixpoint dict_has (d : dict) (k : string) : bool :=
  match d with
  | [] => false
  | (k', _) :: d' => (k' =? k) || dict_has d' k
  end.

(** [d.get(k)], [None] when the key is absent. *)
Fixpoint dict_get (d : dict) (k : string) : option value :=
  match d with
  | [] => None
  | (k', v) :: d' => if k' =? k then Some v else dict_get d' k
  end.

(** [d.get(k, default)] *)
Definition dict_get_default (d : dict) (k : string) (default : value) : value :=
  match dict_get d k with
  | Some v => v
  | None => default
  end.

(** [d[k] = v]: an existing key keeps its place, a new one goes last. *)
Fixpoint dict_set (d : dict) (k : string) (v : value) : dict :=
  match d with
  | [] => [(k, v)]
  | (k', v') :: d' =>
      if k' =? k then (k, v) :: d' else (k', v') :: dict_set d' k v
  end.

(** [del d[k]] *)
Fixpoint dict_del (d : dict) (k : string) : outcome dict :=
  match d with
  | [] => Raise KeyError
  | (k', v') :: d' =>
      if k' =? k then Return d'
      else match dict_del d' k with
           | Return d'' => Return ((k', v') :: d'')
           | Raise e => Raise e
           end
  end.

(** [d[k].extend(l)] *)
Definition dict_extend (d : dict) (k : string) (l : list value) : outcome dict :=
  match dict_get d k with
  | None => Raise KeyError
  | Some (VList l0) => Return (dict_set d k (VList (l0 ++ l)%list))
  | Some _ => Raise AttributeError
  end.

(** [d[k].append(v)] *)
Definition dict_append (d : dict) (k : string) (v : value) : outcome dict :=
  dict_extend d k [v].

(** [s in v] for a string [s]: a substring of a string, an element of a
    list, a key of a dictionary. *)
Definition str_in (s : string) (v : value) : outcome bool :=
  match v with
  | VStr s' => Return (contains s s')
  | VList l => Return (existsb (eq_str s) l)
  | VDict d => Return (dict_has d s)
  | VInt _ | VBool _ => Raise TypeError
  end.

(** [a, b = l] *)
Definition unpack2 {A : Type} (l : list A) : outcome (A * A) :=
  match l with
  | [a; b] => Return (a, b)
  | _ => Raise ValueError
  end.

End Py.

Import Py.

Notation "x <- c ;; k" := (bind c (fun x => k))
  (at level 61, c at next level, right associativity).
Notation "' p <- c ;; k" := (bind c (fun x => let p := x in k))
  (at level 61, p pattern, c at next level, right associativity).

(** ** The compose document *)

Definition DEFAULT_SOURCE : string := "services.toml".
Definition DEFAULT_OUTPUT : string := "docker-compose.yml".

Record DockerCompose : Type := mkDockerCompose {
  version : string;
  services : dict;
  networks : dict
}.

(** [DockerCompose()] *)
Definition DockerCompose_default : DockerCompose :=
  mkDockerCompose "3.8" [] [("traefik", VDict [("external", VBool true)])].

(** [getattr(self, block)] for the three block names. *)
Definition block_value (self : DockerCompose) (block : string) : value :=
  if block =? "version" then VStr (version self)
  else if block =? "services" then VDict (services self)
  else VDict (networks self).

(** The one-key mappings [{block: getattr(self, block)}] that [to_yaml]
    hands to [yaml.dump], in the order it renders them. *)
Definition to_yaml_blocks (self : DockerCompose) : list dict :=
  flat_map
    (fun block =>
       if (block =? "networks") && negb (truthy (VDict (networks self)))
       then []
       else [[(block, block_value self block)]])
    ["version"; "services"; "networks"].

(** [DockerCompose.to_yaml], over the serializer [yaml_dump]. *)
Definition to_yaml (yaml_dump : dict -> string) (self : DockerCompose) : string :=
  join nl (map yaml_dump (to_yaml_blocks self)).

(** ** The service descriptor *)

Record Trado : Type := mkTrado {
  name : string;
  image : value;
  url_host : value;
  url_prefix : string;
  url_expose : value;
  labels : list value;
  envs : list value;
  volumes : list value;
  ports : list value;
  restart : string;
  doppler : value;
  watchtower : value;
  trado_networks : list value
}.

(** [Trado.dict_to_dotted_notation] applied to the mapping held by [v].
    The recursion goes through the nested mappings, so it is structural
    on the enclosing value. *)
Fixpoint dotted_notation (v : value) : dict :=
  match v with
  | VDict d =>
      fold_left
        (fun res kv =>
           match snd kv with
           | VDict _ =>
               fold_left
                 (fun res kv2 => dict_set res (fst kv ++ "." ++ fst kv2) (snd kv2))
                 (dotted_notation (snd kv)) res
           | v' => dict_set res (fst kv) v'
           end)
        d []
  | _ => []
  end.

(** [Trado.dict_to_dotted_notation] *)
Definition dict_to_dotted_notation (d : dict) : dict := dotted_notation (VDict d).

(** [Trado.get_complex_by_type] *)
Definition get_complex_by_type (tr : dict) (element : string) : outcome (list value) :=
  let item := dict_get_default tr element (VList []) in
  match item with
  | VList l => Return l
  | VDict d =>
      Return (map (fun kv => VStr (fst kv ++ "=" ++ str (snd kv)))
                  (dict_to_dotted_notation d))
  | VStr _ => Return [item]
  | _ => Raise (TradoException ("`" ++ element ++ "` is not a list or map, key confilict"))
  end.

(** [Trado.get_url_host_splitted]: the values it leaves in [url_host],
    [url_prefix] and [url_expose], starting from the defaults of the
    dataclass. *)
Definition get_url_host_splitted (tr : dict) : outcome (value * string * value) :=
  let url_host := dict_get_default tr "public" (VStr "") in
  let url_prefix := "" in
  let url_expose := VInt 0 in
  if truthy url_host then
    has_at <- str_in "@" url_host ;;
    ' (url_host, url_expose) <-
      (if has_at : bool then
         match url_host with
         | VStr s =>
             ' (a, b) <- unpack2 (map strip (rsplit1 "@" s)) ;;
             Return (VStr a, VStr b)
         | _ => Raise AttributeError
         end
       else Return (url_host, url_expose)) ;;
    has_slash <- str_in "/" url_host ;;
    if has_slash : bool then
      match url_host with
      | VStr s =>
          ' (a, b) <- unpack2 (map strip (split1 "/" s)) ;;
          Return (VStr a, "/" ++ b, url_expose)
      | _ => Raise AttributeError
      end
    else Return (url_host, url_prefix, url_expose)
  else Return (url_host, url_prefix, url_expose).

Definition restart_values : list string :=
  ["always"; "on-failure"; "unless-stopped"; "no"].

(** [s in l] for a list of strings. *)
Definition mem (s : string) (l : list string) : bool :=
  existsb (String.eqb s) l.

(** [Trado.from_dict] *)
Definition from_dict (name : string) (tr : dict) : outcome Trado :=
  let image := dict_get_default tr "image" (VStr "") in
  ' (url_host, url_prefix, url_expose) <- get_url_host_splitted tr ;;
  labels <- get_complex_by_type tr "labels" ;;
  envs <- get_complex_by_type tr "envs" ;;
  volumes <- get_complex_by_type tr "volumes" ;;
  ports <- get_complex_by_type tr "ports" ;;
  networks <- get_complex_by_type tr "networks" ;;
  restart <-
    match dict_get_default tr "restart" (VStr "always") with
    | VStr s => Return (lower s)
    | _ => Raise AttributeError
    end ;;
  if negb (mem restart restart_values) then
    Raise (TradoException (restart ++ " is not a valid value for `restart` option"))
  else
    let doppler := dict_get_default tr "doppler" (VBool false) in
    let watchtower := dict_get_default tr "watchtower" (VBool false) in
    Return (mkTrado name image url_host url_prefix url_expose
                    labels envs volumes ports restart doppler watchtower networks).

(** [dataclasses.asdict(self)]: the fields in declaration order. *)
Definition asdict (self : Trado) : dict :=
  [ ("name", VStr (name self));
    ("image", image self);
    ("url_host", url_host self);
    ("url_prefix", VStr (url_prefix self));
    ("url_expose", url_expose self);
    ("labels", VList (labels self));
    ("envs", VList (envs self));
    ("volumes", VList (volumes self));
    ("ports", VList (ports self));
    ("restart", VStr (restart self));
    ("doppler", doppler self);
    ("watchtower", watchtower self);
    ("networks", VList (trado_networks self)) ].

(** The local [rule] of [add_network_labels]. *)
Definition rule (self : Trado) : string :=
  "Host(`" ++ str (url_host self) ++ "`)" ++
  (if negb (url_prefix self =? "")
   then " && PathPrefix(`" ++ url_prefix self ++ "`)" else "").

(** The local list [labels] of [add_network_labels], as it stands when
    the final loop starts. *)
Definition network_labels (self : Trado) : list string :=
  let n := name self in
  List.app ["enable=true"]
  (List.app
     (if truthy (url_expose self)
      then ["http.services." ++ n ++ ".loadbalancer.server.port=" ++ str (url_expose self)]
      else [])
  (List.app
     [ "http.routers." ++ n ++ ".rule=" ++ rule self;
       "http.routers." ++ n ++ ".entrypoints=web-secure";
       "http.routers." ++ n ++ ".tls=true" ]
     (if negb (url_prefix self =? "")
      then [ "http.middlewares." ++ n ++ "-pathfix.stripprefix.prefixes=" ++ url_prefix self;
             "http.routers." ++ n ++ ".middlewares=" ++ n ++ "-pathfix@docker" ]
      else [ "http.middlewares." ++ n ++ "-https.redirectscheme.scheme=https";
             "http.routers." ++ n ++ "-http.entrypoints=web";
             "http.routers." ++ n ++ "-http.rule=" ++ rule self;
             "http.routers." ++ n ++ "-http.middlewares=" ++ n ++ "-https@docker";
             "http.routers." ++ n ++ ".tls.certresolver=default" ]))).

(** [Trado.add_network_labels] *)
Definition add_network_labels (self : Trado) (dt : dict) : outcome dict :=
  dt <- (if dict_has dt "networks"
         then dict_append dt "networks" (VStr "traefik")
         else Return (dict_set dt "networks" (VList [VStr "traefik"]))) ;;
  fold_left
    (fun acc line => dt <- acc ;; dict_append dt "labels" (VStr ("traefik." ++ line)))
    (network_labels self) (Return dt).

(** What [yaml.safe_load] makes of the captured standard output: a
    mapping, given by its keys in order; a value that is not a mapping
    ([None] for an empty output, a scalar, a sequence), which has no
    [keys()]; or nothing, when the output does not parse. *)
Inductive loaded : Type :=
| Mapping (keys : list value)
| NotMapping
| Unparsable.

(** What [subprocess.run("doppler secrets --json", ...)] hands back:
    the return code, and the captured standard output as
    [yaml.safe_load] reads it. *)
Record CompletedProcess : Type := mkCompletedProcess {
  returncode : Z;
  stdout : loaded
}.

(** [[x for x in keys if not x.startswith('DOPPLER')]]: a key that is
    not a string has no [startswith]. *)
Fixpoint keep_names (keys : list value) : outcome (list value) :=
  match keys with
  | [] => Return []
  | VStr s :: rest =>
      names <- keep_names rest ;;
      Return (if negb (String.prefix "DOPPLER" s) then VStr s :: names else names)
  | _ :: _ => Raise AttributeError
  end.

(** The comprehension of [add_doppler] over
    [yaml.safe_load(doppler.stdout).keys()]. *)
Definition secret_names (p : loaded) : outcome (list value) :=
  match p with
  | Mapping keys => keep_names keys
  | NotMapping => Raise AttributeError
  | Unparsable => Raise YAMLError
  end.

(** [Trado.add_doppler], over the result of the subprocess call. *)
Definition add_doppler (doppler_run : CompletedProcess) (dt : dict) : outcome dict :=
  dt <- (if (returncode doppler_run =? 0)%Z
         then names <- secret_names (stdout doppler_run) ;;
              Return (dict_set dt "environment" (VList names))
         else Raise (TradoException "doppler secrets --json failed")) ;;
  dict_del dt "doppler".

(** [Trado.add_watchtower_disabled] *)
Definition add_watchtower_disabled (dt : dict) : outcome dict :=
  dt <- dict_append dt "labels" (VStr "com.centurylinklabs.watchtower.enable=false") ;;
  dict_del dt "watchtower".

(** [Trado.to_dict], over the result the subprocess call gives if it is
    made. *)
Definition to_dict (doppler_run : CompletedProcess) (self : Trado) : outcome dict :=
  let dt := asdict self in
  dt <- dict_del dt "name" ;;
  dt <- (if truthy (url_host self)
         then add_network_labels self dt
         else Return (dict_set dt "labels" (VList []))) ;;
  dt <- (if truthy (doppler self) then add_doppler doppler_run dt else Return dt) ;;
  dt <- (if negb (truthy (watchtower self)) then add_watchtower_disabled dt else Return dt) ;;
  dt <- (if dict_has dt "envs" then
           dt <- (if negb (dict_has dt "environment")
                  then Return (dict_set dt "environment" (VList (envs self)))
                  else dict_extend dt "environment" (envs self)) ;;
           dict_del dt "envs"
         else Return dt) ;;
  dt <- fold_left
          (fun acc k => dt <- acc ;; if dict_has dt k then dict_del dt k else Return dt)
          ["url_host"; "url_prefix"; "url_expose"] (Return dt) ;;
  Return (filter (fun kv => truthy (snd kv)) dt).

(** ** Assembling the document *)

(** The two variables the loop of [make_dc_from_toml] carries. *)
Record loop_state : Type := mkLoop {
  dc : DockerCompose;
  traefik_needed : bool
}.

(** What a run leaves behind: the text written to the error stream and
    the value returned or the exception that ended it. *)
Definition run (A : Type) : Type := (string * outcome A)%type.

(** One iteration of the loop of [make_dc_from_toml], for the key
    [service] and its value [entry]; [subprocess_run] gives the result of
    the subprocess call made while that service is rendered. *)
Definition loop_body (subprocess_run : string -> CompletedProcess)
    (st : loop_state) (service : string) (entry : value) : run loop_state :=
  match (match entry with
         | VDict tr => from_dict service tr
         | _ => Raise AttributeError
         end) with
  | Raise e => ("", Raise e)
  | Return tr =>
      match to_dict (subprocess_run service) tr with
      | Raise (TradoException e) =>
          ("Services: " ++ service ++ ": " ++ e ++ nl, Raise (SystemExit (-5)))
      | Raise e => ("", Raise e)
      | Return rendered =>
          let dc1 := mkDockerCompose (version (dc st))
                       (dict_set (services (dc st)) service (VDict rendered))
                       (networks (dc st)) in
          ("",
           needed <-
             match dict_get rendered "networks" with
             | Some net =>
                 if truthy net then
                   found <- str_in "traefik" net ;;
                   Return (if found : bool then true else traefik_needed st)
                 else Return (traefik_needed st)
             | None => Return (traefik_needed st)
             end ;;
           let dc2 := if negb needed
                      then mkDockerCompose (version dc1) (services dc1) []
                      else dc1 in
           Return (mkLoop dc2 needed))
      end
  end.

(** The loop [for service in data.keys()], from the state [st]. *)
Fixpoint loop (subprocess_run : string -> CompletedProcess)
    (data : dict) (st : loop_state) : run loop_state :=
  match data with
  | [] => ("", Return st)
  | (service, entry) :: rest =>
      match loop_body subprocess_run st service entry with
      | (err, Return st') =>
          let (err', r) := loop subprocess_run rest st' in (err ++ err', r)
      | (err, Raise e) => (err, Raise e)
      end
  end.

(** The variables as they are set before the loop. *)
Definition loop_start : loop_state := mkLoop DockerCompose_default false.

(** [make_dc_from_toml], over the mapping [tomli.loads] reads from the
    source file. *)
Definition make_dc_from_toml (subprocess_run : string -> CompletedProcess)
    (data : dict) : run DockerCompose :=
  let (err, r) := loop subprocess_run data loop_start in
  (err, st <- r ;; Return (dc st)).

(** What the process has produced when it ends. *)
Record process : Type := mkProcess {
  written_stderr : string;
  written_stdout : string;
  written_file : option (string * string);
  ended : outcome unit
}.

(** The last lines of [main], from the call of [make_dc_from_toml] on:
    [output] is the destination given on the command line and [dstpath]
    the text of [pathlib.Path(output)]; the file system is taken to
    accept the write. *)
Definition main_generate (yaml_dump : dict -> string)
    (subprocess_run : string -> CompletedProcess)
    (output dstpath : string) (data : dict) : process :=
  let (err, r) := make_dc_from_toml subprocess_run data in
  match r with
  | Raise e => mkProcess err "" None (Raise e)
  | Return d =>
      if output =? "-"
      then mkProcess err (to_yaml yaml_dump d ++ nl) None (Return tt)
      else mkProcess err (dstpath ++ " file generated" ++ nl)
             (Some (dstpath, to_yaml yaml_dump d)) (Return tt)
  end.

(** ** Reading the result of a run *)

(** The rendered mapping of one entry of the source document: what the
    loop stores in [dc.services[service]]. *)
Definition render (subprocess_run : string -> CompletedProcess)
    (service : string) (entry : value) : outcome dict :=
  match entry with
  | VDict tr => t <- from_dict service tr ;; to_dict (subprocess_run service) t
  | _ => Raise AttributeError
  end.

(** A rendered service is attached to the shared network when its
    [networks] list holds ["traefik"]. *)
Definition attached (rendered : dict) : bool :=
  match dict_get rendered "networks" with
  | Some (VList net) => existsb (eq_str "traefik") net
  | _ => false
  end.

Definition entry_attached (subprocess_run : string -> CompletedProcess)
    (kv : string * value) : bool :=
  match render subprocess_run (fst kv) (snd kv) with
  | Return rendered => attached rendered
  | Raise _ => false
  end.

(** A key of the secrets payload that the comprehension of
    [add_doppler] leaves out. *)
Definition reserved (k : value) : bool :=
  match k with
  | VStr s => String.prefix "DOPPLER" s
  | _ => false
  end.

(** What the secrets step of [to_dict] yields: the names it puts into the
    environment, none for a descriptor that is not flagged. *)
Definition injected (doppler_run : CompletedProcess) (self : Trado)
    : outcome (list value) :=
  if truthy (doppler self) then
    if (returncode doppler_run =? 0)%Z
    then secret_names (stdout doppler_run)
    else Raise (TradoException "doppler secrets --json failed")
  else Return [].

(** The label [add_watchtower_disabled] appends. *)
Definition watchtower_off : value :=
  VStr "com.centurylinklabs.watchtower.enable=false".

(** A label as the final loop of [add_network_labels] appends it. *)
Definition namespaced (line : string) : string := "traefik." ++ line.

(** The names of the top-level blocks of the output, in order. *)
Definition block_names (d : DockerCompose) : list string :=
  flat_map (map fst) (to_yaml_blocks d).

(** ** Well-formed entries *)

(** A key that is missing or holds a string. *)
Definition absent_or_str (o : option value) : bool :=
  match o with
  | None | Some (VStr _) => true
  | Some _ => false
  end.

(** An entry whose [public] and [restart] keys, when present, hold
    strings, as the dataclass declares them. *)
Definition well_typed (tr : dict) : bool :=
  absent_or_str (dict_get tr "public") && absent_or_str (dict_get tr "restart").

(** The fields [from_dict] normalizes with [get_complex_by_type], in the
    order in which it does. *)
Definition complex_fields : list string :=
  ["labels"; "envs"; "volumes"; "ports"; "networks"].

(** The field is missing, or is a list, a mapping or a string. *)
Definition shape_ok (tr : dict) (element : string) : bool :=
  match dict_get tr element with
  | None => true
  | Some item => is_list item || is_dict item || is_str item
  end.

(** The restart value is missing, or is a string whose lower-cased form
    is one of the four policies. *)
Definition restart_ok (tr : dict) : bool :=
  match dict_get tr "restart" with
  | None => true
  | Some (VStr r) => mem (lower r) restart_values
  | Some _ => false
  end.

(** The keys a rendered service can have. *)
Definition rendered_keys : list string :=
  ["image"; "labels"; "volumes"; "ports"; "restart"; "watchtower"; "networks";
   "environment"].


(** ** The command line *)

(** What [main] asks of the file system: whether the source file exists,
    the text of [pathlib.Path(output)], whether that path exists, and
    whether its modification time is greater than the one of the source
    file. *)
Record filesystem : Type := mkFilesystem {
  src_exists : bool;
  path_text : string -> string;
  dst_exists : string -> bool;
  dst_newer : string -> bool
}.

(** [main], over the command line [argv], the file system and the
    mapping [tomli.loads] reads from the source file when it is there. *)
Definition main (yaml_dump : dict -> string)
    (subprocess_run : string -> CompletedProcess)
    (argv : list string) (fs : filesystem) (data : dict) : process :=
  let output := match tl argv with
                | [] => DEFAULT_OUTPUT
                | args => join " " args
                end in
  if negb (src_exists fs) then
    mkProcess ("Services: " ++ DEFAULT_SOURCE ++ " not found" ++ nl) "" None
              (Raise (SystemExit (-1)))
  else if negb (output =? "-") && dst_exists fs output && dst_newer fs output then
    mkProcess ("Services: " ++ output ++ " is same or newer than " ++ DEFAULT_SOURCE
               ++ ", stop." ++ nl) "" None (Raise (SystemExit 0))
  else main_generate yaml_dump subprocess_run output (path_text fs output) data.

(** * Properties *)

(** ** The URL shorthand *)

(** C1, as stated, fails: on ["host.example.com@8080/api"] the splitter
    does not yield host [host.example.com], port [8080], prefix [/api]. *)
Lemma url_split_port_before_prefix_counterexample :
  get_url_host_splitted [("public", VStr "host.example.com@8080/api")]
  <> Return (VStr "host.example.com", "/api", VStr "8080").
Proof. vm_compute. discriminate. Qed.

(** ** The complex-field normalizer *)

Lemma dict_get_default_some (d : dict) (k : string) (v default : value) :
  dict_get d k = Some v -> dict_get_default d k default = v.
Proof. unfold dict_get_default. now intros ->. Qed.

Lemma rendered_leaves_are_strings (d : dict) :
  Forall (fun v => is_str v = true)
         (map (fun kv => VStr (fst kv ++ "=" ++ str (snd kv))) d).
Proof. induction d as [|kv d IH]; simpl; constructor; auto. Qed.

Lemma get_complex_by_type_list (tr : dict) (element : string) (l : list value) :
  dict_get tr element = Some (VList l) -> get_complex_by_type tr element = Return l.
Proof.
  intros H. unfold get_complex_by_type.
  now rewrite (dict_get_default_some _ _ _ _ H).
Qed.

(** C8, as stated, fails: a list is handed back as it is, whatever its
    elements are, so a list of integers does not come out as a list of
    strings. *)
Lemma normalizer_list_of_integers_counterexample :
  exists out,
    get_complex_by_type [("ports", VList [VInt 8080])] "ports" = Return out
    /\ ~ Forall (fun v => is_str v = true) out.
Proof.
  exists [VInt 8080]. split; [reflexivity|].
  intros H. inversion H as [|? ? Hhd _]. discriminate Hhd.
Qed.

(** C8, amended: for a raw value that is a list, a mapping or a string
    the normalizer returns a list: the given list itself when the value is
    a list, and a list of strings when it is a mapping or a string.  It is
    idempotent: normalizing its output, given as a list value, returns
    that output unchanged. *)
Theorem normalizer_shape_and_idempotence
    (tr : dict) (element : string) (item : value) :
  dict_get tr element = Some item ->
  is_list item || is_dict item || is_str item = true ->
  exists out,
    get_complex_by_type tr element = Return out
    /\ (forall l, item = VList l -> out = l)
    /\ (is_list item = false -> Forall (fun v => is_str v = true) out)
    /\ (forall tr', dict_get tr' element = Some (VList out) ->
                   get_complex_by_type tr' element = Return out).
Proof.
  intros Hget Hshape. unfold get_complex_by_type at 1.
  rewrite (dict_get_default_some _ _ _ _ Hget).
  destruct item as [s|z|b|l|d]; try discriminate Hshape.
  - exists [VStr s]. repeat split.
    + intros l Hl. discriminate Hl.
    + intros _. repeat constructor.
    + intros tr'. apply get_complex_by_type_list.
  - exists l. repeat split.
    + intros l' Hl. now injection Hl as <-.
    + intros Hl. discriminate Hl.
    + intros tr'. apply get_complex_by_type_list.
  - eexists. repeat split.
    + intros l Hl. discriminate Hl.
    + intros _. apply rendered_leaves_are_strings.
    + intros tr'. apply get_complex_by_type_list.
Qed.

Lemma normalizer_shape_and_idempotence_witness :
  exists out,
    get_complex_by_type [("labels", VDict [("a", VDict [("b", VInt 1)])])] "labels"
      = Return out
    /\ Forall (fun v => is_str v = true) out
    /\ get_complex_by_type [("labels", VList out)] "labels" = Return out.
Proof.
  destruct (normalizer_shape_and_idempotence
              [("labels", VDict [("a", VDict [("b", VInt 1)])])] "labels"
              (VDict [("a", VDict [("b", VInt 1)])]) eq_refl eq_refl)
    as (out & Hout & _ & Hstr & Hidem).
  exists out. split; [exact Hout|]. split.
  - apply Hstr. reflexivity.
  - apply Hidem. reflexivity.
Defined.

Lemma fold_left_pointwise {A B : Type} (f g : A -> B -> A) (l : list B) (a : A) :
  (forall x y, f x y = g x y) -> fold_left f l a = fold_left g l a.
Proof.
  intros Hfg. revert a.
  induction l as [|y l IH]; intros a; simpl; [reflexivity|].
  now rewrite Hfg, IH.
Qed.

(** C9: the nested mapping [{"a": {"b": 1, "c": {"d": 2}}}] normalizes to
    ["a.b=1"] followed by ["a.c.d=2"], whatever the field is called; the
    keys are composed with dots, one level per nested mapping, in the
    order in which the entries are declared. *)
Theorem nested_mapping_flattening (element : string) :
  let nested := [("a", VDict [("b", VInt 1); ("c", VDict [("d", VInt 2)])])] in
  dict_to_dotted_notation nested = [("a.b", VInt 1); ("a.c.d", VInt 2)]
  /\ get_complex_by_type [(element, VDict nested)] element
     = Return [VStr "a.b=1"; VStr "a.c.d=2"]
  /\ (forall d : dict,
        dict_to_dotted_notation d =
        fold_left
          (fun res kv =>
             match snd kv with
             | VDict d' =>
                 fold_left
                   (fun res kv2 => dict_set res (fst kv ++ "." ++ fst kv2) (snd kv2))
                   (dict_to_dotted_notation d') res
             | v => dict_set res (fst kv) v
             end)
          d []).
Proof.
  intros nested. split; [reflexivity|]. split.
  - unfold get_complex_by_type, dict_get_default. simpl dict_get.
    rewrite String.eqb_refl. reflexivity.
  - intros d. unfold dict_to_dotted_notation at 1. simpl.
    apply fold_left_pointwise. intros res kv.
    destruct (snd kv); reflexivity.
Qed.

(** ** Restart validation *)

Lemma mem_In (s : string) (l : list string) : mem s l = true <-> In s l.
Proof.
  unfold mem. rewrite existsb_exists. split.
  - intros (x & Hin & Heq). apply String.eqb_eq in Heq. now subst.
  - intros Hin. exists s. split; [exact Hin|apply String.eqb_refl].
Qed.

(** C7: when the entry gives [restart] as a string and its other fields
    build, construction keeps the lower-cased value and succeeds exactly
    when that value is one of [always], [on-failure], [unless-stopped],
    [no]; otherwise it raises the error that names the lower-cased
    value. *)
Theorem restart_validation (name : string) (tr : dict) (r : string) :
  dict_get tr "restart" = Some (VStr r) ->
  (exists u, get_url_host_splitted tr = Return u) ->
  (forall element,
      In element ["labels"; "envs"; "volumes"; "ports"; "networks"] ->
      exists l, get_complex_by_type tr element = Return l) ->
  (In (lower r) restart_values ->
     exists gen, from_dict name tr = Return gen /\ restart gen = lower r)
  /\ (~ In (lower r) restart_values ->
     from_dict name tr =
     Raise (TradoException (lower r ++ " is not a valid value for `restart` option"))).
Proof.
  intros Hr [[[uh up] ue] Hu] Hc.
  destruct (Hc "labels") as [l1 H1]; [simpl; tauto|].
  destruct (Hc "envs") as [l2 H2]; [simpl; tauto|].
  destruct (Hc "volumes") as [l3 H3]; [simpl; tauto|].
  destruct (Hc "ports") as [l4 H4]; [simpl; tauto|].
  destruct (Hc "networks") as [l5 H5]; [simpl; tauto|].
  unfold from_dict. rewrite Hu, H1, H2, H3, H4, H5.
  rewrite (dict_get_default_some _ _ _ _ Hr). cbn [bind].
  destruct (mem (lower r) restart_values) eqn:Hmem; cbn [negb].
  - split.
    + intros _. eexists. split; reflexivity.
    + intros Hn. exfalso. apply Hn. now apply mem_In.
  - split.
    + intros Hin. apply mem_In in Hin. congruence.
    + intros _. reflexivity.
Qed.

Lemma restart_validation_witness :
  (exists gen, from_dict "web" [("restart", VStr "Always")] = Return gen
               /\ restart gen = "always")
  /\ from_dict "web" [("restart", VStr "maybe")]
     = Raise (TradoException "maybe is not a valid value for `restart` option").
Proof.
  split.
  - apply (restart_validation "web" [("restart", VStr "Always")] "Always").
    + reflexivity.
    + eexists. reflexivity.
    + intros element Hin. eexists.
      simpl in Hin.
      repeat (destruct Hin as [<-|Hin]; [reflexivity|]). destruct Hin.
    + simpl. tauto.
  - apply (restart_validation "web" [("restart", VStr "maybe")] "maybe").
    + reflexivity.
    + eexists. reflexivity.
    + intros element Hin. eexists.
      simpl in Hin.
      repeat (destruct Hin as [<-|Hin]; [reflexivity|]). destruct Hin.
    + simpl. intros H.
      repeat (destruct H as [H|H]; [discriminate H|]). exact H.
Defined.

(** ** Dictionaries *)

Lemma dict_get_set (d : dict) (k k' : string) (v : value) :
  dict_get (dict_set d k v) k' = if k =? k' then Some v else dict_get d k'.
Proof.
  induction d as [|[k0 v0] d IH]; simpl.
  - reflexivity.
  - destruct (k0 =? k) eqn:E0; simpl.
    + apply String.eqb_eq in E0. subst k0.
      destruct (k =? k'); reflexivity.
    + rewrite IH. destruct (k0 =? k') eqn:E1; [|reflexivity].
      apply String.eqb_eq in E1. subst k0.
      rewrite String.eqb_sym in E0. now rewrite E0.
Qed.

Lemma dict_set_set (d : dict) (k : string) (v v' : value) :
  dict_set (dict_set d k v) k v' = dict_set d k v'.
Proof.
  induction d as [|[k0 v0] d IH]; simpl.
  - now rewrite String.eqb_refl.
  - destruct (k0 =? k) eqn:E0; simpl.
    + now rewrite String.eqb_refl.
    + now rewrite E0, IH.
Qed.

Lemma dict_set_same (d : dict) (k : string) (v : value) :
  dict_get d k = Some v -> dict_set d k v = d.
Proof.
  induction d as [|[k0 v0] d IH]; simpl; [discriminate|].
  destruct (k0 =? k) eqn:E.
  - apply String.eqb_eq in E. subst k0. now intros [= ->].
  - intros H. now rewrite (IH H).
Qed.

Lemma dict_has_get (d : dict) (k : string) :
  dict_has d k = match dict_get d k with Some _ => true | None => false end.
Proof.
  induction d as [|[k0 v0] d IH]; simpl; [reflexivity|].
  destruct (k0 =? k); simpl; [reflexivity|exact IH].
Qed.

Lemma dict_extend_list (d : dict) (k : string) (l0 l : list value) :
  dict_get d k = Some (VList l0) ->
  dict_extend d k l = Return (dict_set d k (VList (l0 ++ l)%list)).
Proof. unfold dict_extend. now intros ->. Qed.

Lemma dict_append_list (d : dict) (k : string) (l0 : list value) (v : value) :
  dict_get d k = Some (VList l0) ->
  dict_append d k v = Return (dict_set d k (VList (l0 ++ [v])%list)).
Proof. apply dict_extend_list. Qed.

Lemma dict_get_filter_cons (p : value -> bool) (k0 k : string) (v : value) (d : dict) :
  dict_get (filter (fun kv => p (snd kv)) ((k0, v) :: d)) k =
  if k0 =? k
  then (if p v then Some v else dict_get (filter (fun kv => p (snd kv)) d) k)
  else dict_get (filter (fun kv => p (snd kv)) d) k.
Proof.
  simpl. destruct (p v); simpl; destruct (k0 =? k); reflexivity.
Qed.

(** ** Strings *)

Lemma append_cancel_l (a b c : string) : a ++ b = a ++ c -> b = c.
Proof.
  induction a as [|x a IH]; simpl; intros H; [exact H|].
  injection H as H. exact (IH H).
Qed.

Lemma prefix_append_cancel (a b c : string) :
  String.prefix (a ++ b) (a ++ c) = String.prefix b c.
Proof.
  induction a as [|x a IH]; simpl; [reflexivity|].
  destruct (ascii_dec x x) as [_|Hne]; [exact IH|now elim Hne].
Qed.

Ltac differ H :=
  simpl in H;
  repeat first [ discriminate H | injection H as H | apply append_cancel_l in H ].

(** ** Routing labels *)

Lemma append_labels_fold (lines : list string) (dt : dict) (ls : list value) :
  dict_get dt "labels" = Some (VList ls) ->
  fold_left
    (fun acc line => dt <- acc ;; dict_append dt "labels" (VStr ("traefik." ++ line)))
    lines (Return dt)
  = Return (dict_set dt "labels"
              (VList (ls ++ map VStr (map namespaced lines))%list)).
Proof.
  revert dt ls. induction lines as [|line lines IH]; intros dt ls Hls; simpl.
  - rewrite app_nil_r. now rewrite (dict_set_same _ _ _ Hls).
  - rewrite (dict_append_list _ _ _ _ Hls).
    rewrite (IH _ (ls ++ [VStr ("traefik." ++ line)])%list).
    + rewrite dict_set_set, <- app_assoc. reflexivity.
    + rewrite dict_get_set. reflexivity.
Qed.

Lemma add_network_labels_lists (self : Trado) (dt : dict) (ns ls : list value) :
  dict_get dt "networks" = Some (VList ns) ->
  dict_get dt "labels" = Some (VList ls) ->
  add_network_labels self dt =
  Return (dict_set
            (dict_set dt "networks" (VList (ns ++ [VStr "traefik"])%list))
            "labels"
            (VList (ls ++ map VStr (map namespaced (network_labels self)))%list)).
Proof.
  intros Hns Hls. unfold add_network_labels.
  rewrite dict_has_get, Hns, (dict_append_list _ _ _ _ Hns). cbn [bind].
  apply append_labels_fold. rewrite dict_get_set. exact Hls.
Qed.

Lemma namespaced_prefix (lines : list string) :
  Forall (fun l => String.prefix "traefik." l = true) (map namespaced lines).
Proof.
  induction lines as [|line lines IH]; simpl; constructor; auto.
  unfold namespaced. destruct line; reflexivity.
Qed.

(** ** Rendering a descriptor *)

Lemma keep_names_spec (keys : list value) :
  keep_names keys =
  if forallb is_str keys
  then Return (filter (fun k => negb (reserved k)) keys)
  else Raise AttributeError.
Proof.
  induction keys as [|k keys IH]; [reflexivity|].
  destruct k as [s|z|b|l|d]; try reflexivity.
  cbn [keep_names forallb is_str andb filter reserved]. rewrite IH.
  destruct (forallb is_str keys); cbn [bind]; [|reflexivity].
  now destruct (String.prefix "DOPPLER" s).
Qed.

(** [to_dict] in closed form: the secrets step is the only one that can
    fail, and otherwise the result is the falsy-field drop over an
    explicit list of fields. *)
Lemma to_dict_spec (doppler_run : CompletedProcess) (self : Trado) :
  to_dict doppler_run self =
  match injected doppler_run self with
  | Raise e => Raise e
  | Return names =>
    Return
      (filter (fun kv => truthy (snd kv))
         ([ ("image", image self);
            ("labels",
             VList ((if truthy (url_host self)
                     then labels self ++ map VStr (map namespaced (network_labels self))
                     else []) ++
                    (if truthy (watchtower self) then [] else [watchtower_off]))%list);
            ("volumes", VList (volumes self));
            ("ports", VList (ports self));
            ("restart", VStr (restart self)) ] ++
          (if truthy (doppler self) then [] else [("doppler", doppler self)]) ++
          (if truthy (watchtower self) then [("watchtower", watchtower self)] else []) ++
          [ ("networks",
             VList (if truthy (url_host self)
                    then trado_networks self ++ [VStr "traefik"]
                    else trado_networks self)%list);
            ("environment", VList (names ++ envs self)%list) ])%list)
  end.
Proof.
  destruct self as [n im uh up ue ls es vs ps rs dp wt ns].
  unfold to_dict, asdict, injected.
  cbn [name image url_host url_prefix url_expose labels envs volumes ports
       restart doppler watchtower trado_networks].
  change (dict_del _ "name") with
    (Return [("image", im); ("url_host", uh); ("url_prefix", VStr up);
             ("url_expose", ue); ("labels", VList ls); ("envs", VList es);
             ("volumes", VList vs); ("ports", VList ps); ("restart", VStr rs);
             ("doppler", dp); ("watchtower", wt); ("networks", VList ns)]).
  cbn [bind].
  unfold add_doppler, add_watchtower_disabled.
  destruct (truthy uh) eqn:Eh;
    [rewrite add_network_labels_lists with (ns := ns) (ls := ls) by reflexivity|];
    destruct (truthy dp) eqn:Ed;
    try destruct (returncode doppler_run =? 0)%Z eqn:Er;
    try destruct (secret_names (stdout doppler_run)) as [names|e];
    destruct (truthy wt) eqn:Ew;
    cbn -[network_labels truthy filter]; rewrite ?app_nil_r; reflexivity.
Qed.

Ltac lookup_filtered :=
  repeat (rewrite dict_get_filter_cons; cbn [String.eqb Ascii.eqb Bool.eqb]);
  cbn [filter dict_get].

Lemma Return_inj {A : Type} (a b : A) : Return a = Return b -> a = b.
Proof. now intros [= ->]. Qed.

Lemma to_dict_returns (doppler_run : CompletedProcess) (self : Trado) (dt : dict) :
  to_dict doppler_run self = Return dt ->
  dict_get dt "watchtower"
    = (if truthy (watchtower self) then Some (watchtower self) else None)
  /\ dict_get dt "networks"
    = (let net := (if truthy (url_host self)
                   then trado_networks self ++ [VStr "traefik"]
                   else trado_networks self)%list in
       if truthy (VList net) then Some (VList net) else None)
  /\ dict_get dt "labels"
    = (let all := ((if truthy (url_host self)
                    then labels self ++ map VStr (map namespaced (network_labels self))
                    else []) ++
                   (if truthy (watchtower self) then [] else [watchtower_off]))%list in
       if truthy (VList all) then Some (VList all) else None).
Proof.
  rewrite to_dict_spec.
  destruct (injected doppler_run self) as [names|e]; [|discriminate].
  intros H. apply Return_inj in H. subst dt.
  destruct (truthy (doppler self)), (truthy (watchtower self)) eqn:Ew;
    cbn [List.app]; (split; [|split]); lookup_filtered;
    rewrite ?Ew; reflexivity.
Qed.
(** C10: for a descriptor whose [watchtower] flag is true, rendering
    either stops in the secrets step (a failed retrieval, or a payload
    that cannot be read) or returns a mapping whose field [watchtower] is
    true: the field is deleted only when the flag is false, and a true
    value passes the falsy-field drop. *)
Theorem watchtower_true_is_rendered (doppler_run : CompletedProcess) (self : Trado) :
  watchtower self = VBool true ->
  match to_dict doppler_run self with
  | Return dt => dict_get dt "watchtower" = Some (VBool true)
  | Raise e =>
      truthy (doppler self) = true
      /\ ((returncode doppler_run <> 0%Z
           /\ e = TradoException "doppler secrets --json failed")
          \/ (returncode doppler_run = 0%Z
              /\ secret_names (stdout doppler_run) = Raise e))
  end.
Proof.
  intros Hw.
  destruct (to_dict doppler_run self) as [dt|e] eqn:E.
  - destruct (to_dict_returns _ _ _ E) as [H _].
    rewrite H, Hw. reflexivity.
  - rewrite to_dict_spec in E. unfold injected in E.
    destruct (truthy (doppler self)); [|discriminate E].
    split; [reflexivity|].
    destruct (returncode doppler_run =? 0)%Z eqn:Er.
    + right. apply Z.eqb_eq in Er. split; [exact Er|].
      destruct (secret_names (stdout doppler_run)); [discriminate E|].
      now injection E as <-.
    + left. apply Z.eqb_neq in Er. split; [exact Er|]. now injection E as <-.
Qed.

Lemma watchtower_true_is_rendered_witness :
  match
    to_dict (mkCompletedProcess 0 (Mapping []))
      (mkTrado "web" (VStr "nginx") (VStr "") "" (VInt 0) [] [] [] [] "always"
               (VBool false) (VBool true) [])
  with
  | Return dt => dict_get dt "watchtower" = Some (VBool true)
  | Raise e =>
      False
  end.
Proof.
  pose proof (watchtower_true_is_rendered (mkCompletedProcess 0 (Mapping []))
           (mkTrado "web" (VStr "nginx") (VStr "") "" (VInt 0) [] [] [] [] "always"
                    (VBool false) (VBool true) []) eq_refl) as H.
  exact H.
Defined.

(** ** The two routing shapes *)

Lemma network_labels_head (self : Trado) :
  exists rest, network_labels self = "enable=true" :: rest.
Proof. unfold network_labels. simpl. eexists. reflexivity. Qed.

(** The labels of a rendered descriptor with a public host: those of the
    entry, then the synthesized ones, then the watchtower label if any. *)
Lemma to_dict_labels_public (doppler_run : CompletedProcess) (self : Trado) (dt : dict) :
  truthy (url_host self) = true ->
  to_dict doppler_run self = Return dt ->
  dict_get dt "labels" =
  Some (VList ((labels self ++ map VStr (map namespaced (network_labels self))) ++
               (if truthy (watchtower self) then [] else [watchtower_off]))%list).
Proof.
  intros Hh E. destruct (to_dict_returns _ _ _ E) as (_ & _ & H).
  rewrite H, Hh. cbv zeta.
  destruct (network_labels_head self) as [rest ->].
  destruct (labels self); reflexivity.
Qed.

Ltac in_labels := solve [simpl; auto 20].

(** C5: a descriptor with a public host and no prefix.  Label synthesis
    appends to the [labels] list, each under the [traefik.] namespace, the
    labels of the TLS router and of the [-http] router, both with the rule
    [Host(`<host>`)], the redirect middleware [<name>-https] bound to the
    [-http] router, and [certresolver=default] for the TLS router; there
    is no such label for the [-http] router.  The rendered descriptor
    carries them after the labels of the entry. *)
Theorem host_scoped_routing (self : Trado) :
  truthy (url_host self) = true ->
  url_prefix self = "" ->
  let n := name self in
  let r := "Host(`" ++ str (url_host self) ++ "`)" in
  let emitted := map namespaced (network_labels self) in
  (forall dt ns ls,
      dict_get dt "networks" = Some (VList ns) ->
      dict_get dt "labels" = Some (VList ls) ->
      add_network_labels self dt =
      Return (dict_set (dict_set dt "networks" (VList (ns ++ [VStr "traefik"])%list))
                       "labels" (VList (ls ++ map VStr emitted)%list)))
  /\ (forall doppler_run dt,
        to_dict doppler_run self = Return dt ->
        exists tail,
          dict_get dt "labels" = Some (VList ((labels self ++ map VStr emitted) ++ tail)%list))
  /\ Forall (fun l => String.prefix "traefik." l = true) emitted
  /\ In ("traefik.http.routers." ++ n ++ ".rule=" ++ r) emitted
  /\ In ("traefik.http.routers." ++ n ++ ".entrypoints=web-secure") emitted
  /\ In ("traefik.http.routers." ++ n ++ ".tls=true") emitted
  /\ In ("traefik.http.routers." ++ n ++ "-http.rule=" ++ r) emitted
  /\ In ("traefik.http.routers." ++ n ++ "-http.entrypoints=web") emitted
  /\ In ("traefik.http.middlewares." ++ n ++ "-https.redirectscheme.scheme=https") emitted
  /\ In ("traefik.http.routers." ++ n ++ "-http.middlewares=" ++ n ++ "-https@docker") emitted
  /\ In ("traefik.http.routers." ++ n ++ ".tls.certresolver=default") emitted
  /\ ~ In ("traefik.http.routers." ++ n ++ "-http.tls.certresolver=default") emitted.
Proof.
  intros Hh Hp n r emitted.
  split; [intros dt ns ls; apply add_network_labels_lists|].
  split.
  { intros doppler_run dt E. eexists. exact (to_dict_labels_public _ _ _ Hh E). }
  split; [apply namespaced_prefix|].
  subst emitted r n. unfold network_labels, rule, namespaced. rewrite Hp.
  cbn [String.eqb negb].
  destruct (truthy (url_expose self));
    (repeat (split; [in_labels|])); simpl; intros H;
    repeat (destruct H as [H|H]; [differ H|]); exact H.
Qed.

Lemma host_scoped_routing_witness :
  let app := mkTrado "app" (VStr "") (VStr "app.test") "" (VStr "80")
                     [] [] [] [] "always" (VBool false) (VBool false) [] in
  In "traefik.http.routers.app-http.rule=Host(`app.test`)"
     (map namespaced (network_labels app))
  /\ In "traefik.http.routers.app.tls.certresolver=default"
        (map namespaced (network_labels app))
  /\ ~ In "traefik.http.routers.app-http.tls.certresolver=default"
          (map namespaced (network_labels app)).
Proof.
  intros app.
  destruct (host_scoped_routing app eq_refl eq_refl)
    as (_ & _ & _ & _ & _ & _ & Hrule & _ & _ & _ & Hcert & Hnone).
  split; [exact Hrule|]. split; [exact Hcert|exact Hnone].
Defined.

Lemma eqb_empty_false (s : string) : s <> "" -> (s =? "") = false.
Proof. intros H. apply String.eqb_neq. exact H. Qed.

Ltac no_prefix :=
  simpl; rewrite ?prefix_append_cancel; try reflexivity.

(** C6: a descriptor with a public host and a prefix.  Label synthesis
    appends to the [labels] list, each under the [traefik.] namespace, the
    labels of one router only, whose rule holds both [Host(`<host>`)] and
    [PathPrefix(`<prefix>`)], the strip-prefix middleware
    [<name>-pathfix] and the label that attaches it to the router; no
    label of an [-http] router is among them.  The rendered descriptor
    carries them after the labels of the entry. *)
Theorem path_scoped_routing (self : Trado) :
  truthy (url_host self) = true ->
  url_prefix self <> "" ->
  let n := name self in
  let p := url_prefix self in
  let r := "Host(`" ++ str (url_host self) ++ "`) && PathPrefix(`" ++ p ++ "`)" in
  let emitted := map namespaced (network_labels self) in
  (forall dt ns ls,
      dict_get dt "networks" = Some (VList ns) ->
      dict_get dt "labels" = Some (VList ls) ->
      add_network_labels self dt =
      Return (dict_set (dict_set dt "networks" (VList (ns ++ [VStr "traefik"])%list))
                       "labels" (VList (ls ++ map VStr emitted)%list)))
  /\ (forall doppler_run dt,
        to_dict doppler_run self = Return dt ->
        exists tail,
          dict_get dt "labels" = Some (VList ((labels self ++ map VStr emitted) ++ tail)%list))
  /\ Forall (fun l => String.prefix "traefik." l = true) emitted
  /\ rule self = r
  /\ In ("traefik.http.routers." ++ n ++ ".rule=" ++ r) emitted
  /\ In ("traefik.http.routers." ++ n ++ ".entrypoints=web-secure") emitted
  /\ In ("traefik.http.routers." ++ n ++ ".tls=true") emitted
  /\ In ("traefik.http.middlewares." ++ n ++ "-pathfix.stripprefix.prefixes=" ++ p) emitted
  /\ In ("traefik.http.routers." ++ n ++ ".middlewares=" ++ n ++ "-pathfix@docker") emitted
  /\ Forall (fun l => String.prefix ("traefik.http.routers." ++ n ++ "-http") l = false)
            emitted
  /\ Forall (fun l => String.prefix "traefik.http.routers." l = true ->
                      String.prefix ("traefik.http.routers." ++ n ++ ".") l = true)
            emitted.
Proof.
  intros Hh Hp n p r emitted.
  split; [intros dt ns ls; apply add_network_labels_lists|].
  split.
  { intros doppler_run dt E. eexists. exact (to_dict_labels_public _ _ _ Hh E). }
  split; [apply namespaced_prefix|].
  subst emitted r p n. unfold network_labels, rule, namespaced.
  rewrite (eqb_empty_false _ Hp). cbn [negb].
  split; [reflexivity|].
  destruct (truthy (url_expose self));
    (repeat (split; [in_labels|])); cbn [List.app map]; split;
    repeat constructor; no_prefix; intros H; try discriminate H; reflexivity.
Qed.

Lemma path_scoped_routing_witness :
  let app := mkTrado "app" (VStr "") (VStr "app.test") "/api" (VStr "80")
                     [] [] [] [] "always" (VBool false) (VBool false) [] in
  In "traefik.http.routers.app.rule=Host(`app.test`) && PathPrefix(`/api`)"
     (map namespaced (network_labels app))
  /\ In "traefik.http.middlewares.app-pathfix.stripprefix.prefixes=/api"
        (map namespaced (network_labels app))
  /\ Forall (fun l => String.prefix "traefik.http.routers.app-http" l = false)
            (map namespaced (network_labels app)).
Proof.
  intros app.
  assert (Hp : url_prefix app <> "") by discriminate.
  destruct (path_scoped_routing app eq_refl Hp)
    as (_ & _ & _ & _ & Hrule & _ & _ & Hfix & _ & Hnone & _).
  split; [exact Hrule|]. split; [exact Hfix|exact Hnone].
Defined.

(** ** The loop over the services *)

(** One iteration that returns: the service rendered, its mapping was
    stored, the flag was or-ed with the attachment of this service, and
    the block was kept if the flag is now set and cleared if not. *)
Lemma loop_body_returns (subprocess_run : string -> CompletedProcess)
    (st st' : loop_state) (service : string) (entry : value) (err : string) :
  loop_body subprocess_run st service entry = (err, Return st') ->
  err = ""
  /\ exists rendered,
      render subprocess_run service entry = Return rendered
      /\ traefik_needed st' = traefik_needed st || attached rendered
      /\ networks (dc st') = (if traefik_needed st' then networks (dc st) else [])
      /\ services (dc st') = dict_set (services (dc st)) service (VDict rendered)
      /\ version (dc st') = version (dc st).
Proof.
  unfold loop_body, render.
  destruct entry as [s|z|b|l|tr]; try (intros H; discriminate H).
  destruct (from_dict service tr) as [t|e] eqn:Ef; [|intros H; discriminate H].
  cbn [bind].
  destruct (to_dict (subprocess_run service) t) as [rendered|e] eqn:Et;
    [|destruct e; intros H; discriminate H].
  destruct (to_dict_returns _ _ _ Et) as (_ & Hnet & _). cbv zeta in Hnet.
  rewrite Hnet.
  destruct (truthy (VList _)) eqn:En; [rewrite En|]; cbn [bind str_in];
    intros H; injection H as <- <-; (split; [reflexivity|]);
    exists rendered; (split; [reflexivity|]); cbn [traefik_needed dc];
    unfold attached; rewrite Hnet.
  - destruct (existsb _ _), (traefik_needed st); repeat split; reflexivity.
  - destruct (traefik_needed st); repeat split; reflexivity.
Qed.

Lemma append_assoc (a b c : string) : (a ++ b) ++ c = a ++ (b ++ c).
Proof. induction a as [|x a IH]; simpl; [reflexivity|now rewrite IH]. Qed.

Lemma loop_app (subprocess_run : string -> CompletedProcess)
    (pre post : dict) (st : loop_state) :
  loop subprocess_run (pre ++ post)%list st =
  match loop subprocess_run pre st with
  | (err, Return st') =>
      let (err', r) := loop subprocess_run post st' in (err ++ err', r)
  | (err, Raise e) => (err, Raise e)
  end.
Proof.
  revert st. induction pre as [|[service entry] pre IH]; intros st; simpl.
  - destruct (loop subprocess_run post st). reflexivity.
  - destruct (loop_body subprocess_run st service entry) as [err [st1|e]];
      [|reflexivity].
    rewrite IH.
    destruct (loop subprocess_run pre st1) as [err1 [st2|e]]; [|reflexivity].
    destruct (loop subprocess_run post st2) as [err2 r].
    now rewrite append_assoc.
Qed.

(** A loop that returns: nothing went to the error stream, the flag is
    the disjunction of its initial value and of the attachments, a block
    that was cleared stays cleared, and a block is left alone from the
    moment the flag is set. *)
Lemma loop_returns (subprocess_run : string -> CompletedProcess)
    (data : dict) (st st' : loop_state) (err : string) :
  loop subprocess_run data st = (err, Return st') ->
  err = ""
  /\ traefik_needed st' =
       traefik_needed st || existsb (entry_attached subprocess_run) data
  /\ (traefik_needed st = true -> networks (dc st') = networks (dc st))
  /\ (networks (dc st) = [] -> networks (dc st') = [])
  /\ version (dc st') = version (dc st).
Proof.
  revert st st' err.
  induction data as [|[service entry] data IH]; intros st st' err; simpl.
  - intros [= <- <-]. rewrite orb_false_r. repeat split; auto.
  - destruct (loop_body subprocess_run st service entry) as [err1 [st1|e]] eqn:Eb;
      [|intros H; discriminate H].
    destruct (loop_body_returns _ _ _ _ _ _ Eb)
      as (-> & rendered & Hr & Hflag & Hnet & _ & Hv).
    destruct (loop subprocess_run data st1) as [err2 [st2|e]] eqn:El;
      [|intros H; discriminate H].
    destruct (IH _ _ _ El) as (-> & Hflag2 & Hkeep & Hclear & Hv2).
    intros [= <- <-]. split; [reflexivity|].
    unfold entry_attached at 1. cbn [fst snd]. rewrite Hr.
    split; [rewrite Hflag2, Hflag; symmetry; apply orb_assoc|].
    split; [|split].
    + intros Hst. rewrite Hkeep; rewrite Hflag, Hst in *; [exact Hnet|reflexivity].
    + intros Hst. apply Hclear. rewrite Hnet, Hst. now destruct (traefik_needed st1).
    + congruence.
Qed.


Lemma make_dc_from_toml_returns (subprocess_run : string -> CompletedProcess)
    (data : dict) (d : DockerCompose) :
  snd (make_dc_from_toml subprocess_run data) = Return d ->
  exists st, loop subprocess_run data loop_start = ("", Return st) /\ dc st = d.
Proof.
  unfold make_dc_from_toml.
  destruct (loop subprocess_run data loop_start) as [err [st|e]] eqn:El; simpl;
    [|intros H; discriminate H].
  intros [= <-]. destruct (loop_returns _ _ _ _ _ El) as (-> & _).
  exists st. split; reflexivity.
Qed.

(** The block in the output of a run that returns, for a document with
    at least one service: it is decided by the first service. *)
Lemma make_dc_from_toml_networks (subprocess_run : string -> CompletedProcess)
    (kv : string * value) (rest : dict) (d : DockerCompose) :
  snd (make_dc_from_toml subprocess_run (kv :: rest)) = Return d ->
  networks d =
  if entry_attached subprocess_run kv then networks DockerCompose_default else [].
Proof.
  intros H. destruct (make_dc_from_toml_returns _ _ _ H) as (st & El & <-).
  destruct kv as [service entry]. simpl in El.
  destruct (loop_body subprocess_run loop_start service entry)
    as [err1 [st1|e]] eqn:Eb; [|discriminate El].
  destruct (loop_body_returns _ _ _ _ _ _ Eb) as (-> & rendered & Hr & Hflag & Hnet & _).
  destruct (loop subprocess_run rest st1) as [err2 [st2|e]] eqn:E2; [|discriminate El].
  injection El as _ <-.
  destruct (loop_returns _ _ _ _ _ E2) as (_ & _ & Hkeep & Hclear & _).
  unfold entry_attached. cbn [fst snd]. rewrite Hr.
  cbn [traefik_needed loop_start orb] in Hflag. rewrite Hflag in *.
  destruct (attached rendered).
  - rewrite Hkeep by reflexivity. exact Hnet.
  - apply Hclear. exact Hnet.
Qed.

Lemma make_dc_from_toml_split (subprocess_run : string -> CompletedProcess)
    (pre post : dict) (service : string) (entry : value) (d : DockerCompose) :
  snd (make_dc_from_toml subprocess_run (pre ++ (service, entry) :: post)%list) = Return d ->
  exists st st',
    loop subprocess_run pre loop_start = ("", Return st)
    /\ loop_body subprocess_run st service entry = ("", Return st').
Proof.
  intros H. destruct (make_dc_from_toml_returns _ _ _ H) as (st2 & El & _).
  rewrite loop_app in El.
  destruct (loop subprocess_run pre loop_start) as [err [st|e]] eqn:E1;
    [|discriminate El].
  destruct (loop_returns _ _ _ _ _ E1) as (-> & _).
  simpl in El.
  destruct (loop_body subprocess_run st service entry) as [err1 [st'|e]] eqn:Eb;
    [|discriminate El].
  destruct (loop_body_returns _ _ _ _ _ _ Eb) as (-> & _).
  exists st, st'. split; [reflexivity|exact Eb].
Qed.

(** C3, as stated, fails: the first service references the shared
    network, the last one does not, and the block is in the output. *)
Lemma last_service_unattached_counterexample :
  let subprocess_run := fun _ : string => mkCompletedProcess 0 (Mapping []) in
  let data := [("a", VDict [("public", VStr "a.test")]); ("b", VDict [])] in
  entry_attached subprocess_run ("b", VDict []) = false
  /\ exists d,
      make_dc_from_toml subprocess_run data = ("", Return d)
      /\ block_names d = ["version"; "services"; "networks"].
Proof.
  split; [reflexivity|]. eexists. split; reflexivity.
Qed.

(** C3, amended: in a run that returns, take any service of the document,
    with the services before it.  The flag before it says whether one of
    the earlier services references the shared network; after it, the flag
    is set if it was set or this service references the network, and the
    block is kept if the flag is set and cleared if not.  So a document
    whose first service references the network has the block in the
    output, whatever its last service does, and a document none of whose
    services references it has the block absent. *)
Theorem network_flag_is_cumulative (subprocess_run : string -> CompletedProcess)
    (pre post : dict) (service : string) (entry : value) (d : DockerCompose) :
  let data := (pre ++ (service, entry) :: post)%list in
  snd (make_dc_from_toml subprocess_run data) = Return d ->
  exists st st',
    loop subprocess_run pre loop_start = ("", Return st)
    /\ loop_body subprocess_run st service entry = ("", Return st')
    /\ traefik_needed st = existsb (entry_attached subprocess_run) pre
    /\ traefik_needed st' =
         traefik_needed st || entry_attached subprocess_run (service, entry)
    /\ networks (dc st') = (if traefik_needed st' then networks (dc st) else [])
    /\ (forall kv rest, data = kv :: rest ->
          entry_attached subprocess_run kv = true ->
          networks d = networks DockerCompose_default)
    /\ (existsb (entry_attached subprocess_run) data = false -> networks d = []).
Proof.
  intros data H.
  destruct (make_dc_from_toml_split _ _ _ _ _ _ H) as (st & st' & E1 & Eb).
  exists st, st'. split; [exact E1|]. split; [exact Eb|].
  destruct (loop_returns _ _ _ _ _ E1) as (_ & Hflag & _).
  destruct (loop_body_returns _ _ _ _ _ _ Eb) as (_ & rendered & Hr & Hflag' & Hnet & _).
  split; [exact Hflag|].
  split; [unfold entry_attached; cbn [fst snd]; rewrite Hr; exact Hflag'|].
  split; [exact Hnet|].
  split.
  - intros kv rest Hdata Hkv. rewrite Hdata in H.
    rewrite (make_dc_from_toml_networks _ _ _ _ H), Hkv. reflexivity.
  - intros Hnone. destruct data as [|kv rest] eqn:Hdata.
    + subst data. destruct pre; discriminate Hdata.
    + rewrite (make_dc_from_toml_networks _ _ _ _ H).
      simpl in Hnone. apply orb_false_iff in Hnone. destruct Hnone as [-> _].
      reflexivity.
Qed.

Lemma network_flag_is_cumulative_witness :
  let subprocess_run := fun _ : string => mkCompletedProcess 0 (Mapping []) in
  let data := [("a", VDict [("public", VStr "a.test")]); ("b", VDict [])] in
  let d := match snd (make_dc_from_toml subprocess_run data) with
           | Return d => d
           | Raise _ => DockerCompose_default
           end in
  snd (make_dc_from_toml subprocess_run data) = Return d
  /\ networks d = networks DockerCompose_default.
Proof.
  intros subprocess_run data d.
  assert (H : snd (make_dc_from_toml subprocess_run data) = Return d) by reflexivity.
  split; [exact H|].
  destruct (network_flag_is_cumulative subprocess_run
              [("a", VDict [("public", VStr "a.test")])] [] "b" (VDict []) d H)
    as (st & st' & _ & _ & _ & _ & _ & Hfirst & _).
  apply (Hfirst ("a", VDict [("public", VStr "a.test")]) [("b", VDict [])]);
    reflexivity.
Defined.

(** ** The shared network block *)

Lemma block_names_spec (d : DockerCompose) :
  block_names d =
  match networks d with
  | [] => ["version"; "services"]
  | _ => ["version"; "services"; "networks"]
  end.
Proof. unfold block_names, to_yaml_blocks. simpl. now destruct (networks d). Qed.

(** What the loop does with the block, for any document: it is in the
    output exactly when the document has no service or its first service
    is attached to the shared network. *)
Lemma networks_block_follows_first_service
    (subprocess_run : string -> CompletedProcess) (data : dict) (d : DockerCompose) :
  snd (make_dc_from_toml subprocess_run data) = Return d ->
  block_names d =
  match data with
  | [] => ["version"; "services"; "networks"]
  | kv :: _ =>
      if entry_attached subprocess_run kv
      then ["version"; "services"; "networks"]
      else ["version"; "services"]
  end.
Proof.
  intros H. rewrite block_names_spec. destruct data as [|kv rest].
  - injection H as <-. reflexivity.
  - rewrite (make_dc_from_toml_networks _ _ _ _ H).
    now destruct (entry_attached subprocess_run kv).
Qed.

(** C2 on the code: a service attached to the shared network that comes
    after one that is not leaves the output without the [networks] block,
    and a document with no service at all has the block. *)
Theorem networks_block_decided_by_first_service :
  let subprocess_run := fun _ : string => mkCompletedProcess 0 (Mapping []) in
  let plain := ("a", VDict []) in
  let public := ("b", VDict [("public", VStr "b.test")]) in
  entry_attached subprocess_run public = true
  /\ (exists d,
        make_dc_from_toml subprocess_run [plain; public] = ("", Return d)
        /\ block_names d = ["version"; "services"])
  /\ (exists d,
        make_dc_from_toml subprocess_run [] = ("", Return d)
        /\ block_names d = ["version"; "services"; "networks"]).
Proof.
  split; [reflexivity|]. split; eexists; split; reflexivity.
Qed.

(** ** Errors *)

(** An error raised while the descriptor is built leaves the loop as it
    is: nothing is written and no exit status is chosen. *)
Lemma from_dict_error_escapes (subprocess_run : string -> CompletedProcess)
    (st : loop_state) (service : string) (tr : dict) (e : exn) :
  from_dict service tr = Raise e ->
  loop_body subprocess_run st service (VDict tr) = ("", Raise e).
Proof. unfold loop_body. now intros ->. Qed.

(** A [TradoException] raised while the descriptor is rendered is
    reported with the name of the service and ends the run with status
    [-5]. *)
Lemma to_dict_error_is_reported (subprocess_run : string -> CompletedProcess)
    (st : loop_state) (service : string) (tr : dict) (t : Trado) (msg : string) :
  from_dict service tr = Return t ->
  to_dict (subprocess_run service) t = Raise (TradoException msg) ->
  loop_body subprocess_run st service (VDict tr) =
  ("Services: " ++ service ++ ": " ++ msg ++ nl, Raise (SystemExit (-5))).
Proof. unfold loop_body. now intros -> ->. Qed.

(** A run that does not return writes no document. *)
Lemma main_generate_no_output (yaml_dump : dict -> string)
    (subprocess_run : string -> CompletedProcess) (output dstpath : string)
    (data : dict) (e : exn) :
  snd (make_dc_from_toml subprocess_run data) = Raise e ->
  let p := main_generate yaml_dump subprocess_run output dstpath data in
  written_file p = None /\ written_stdout p = "" /\ ended p = Raise e.
Proof.
  unfold main_generate.
  destruct (make_dc_from_toml subprocess_run data) as [err r]. simpl.
  intros ->. repeat split.
Qed.

(** C4 on the code: an invalid restart value and a field of the wrong
    shape end the run with the bare exception, nothing being written to
    the error stream and no service being named, whereas a failed secrets
    retrieval is reported with the name of the service and ends the run
    with status [-5]. *)
Theorem construction_errors_escape_the_handler :
  let subprocess_run := fun _ : string => mkCompletedProcess 1 (Mapping []) in
  make_dc_from_toml subprocess_run [("web", VDict [("restart", VStr "maybe")])]
    = ("", Raise (TradoException "maybe is not a valid value for `restart` option"))
  /\ make_dc_from_toml subprocess_run [("web", VDict [("ports", VInt 8080)])]
    = ("", Raise (TradoException "`ports` is not a list or map, key confilict"))
  /\ make_dc_from_toml subprocess_run [("web", VDict [("doppler", VBool true)])]
    = ("Services: web: doppler secrets --json failed" ++ nl, Raise (SystemExit (-5))).
Proof. repeat split. Qed.

(** * Further properties *)

(** ** Stripping and cutting strings *)

Lemma prefix_empty (s : string) : String.prefix "" s = true.
Proof. destruct s; reflexivity. Qed.

Lemma contains_char (c : ascii) (s : string) :
  contains (String c "") s = has_char c s.
Proof.
  induction s as [|a s IH]; [reflexivity|].
  cbn [contains has_char]. rewrite IH. f_equal.
  cbn [String.prefix]. rewrite prefix_empty.
  destruct (ascii_dec c a) as [->|Hne].
  - now rewrite Ascii.eqb_refl.
  - symmetry. apply Ascii.eqb_neq. congruence.
Qed.

Lemma has_char_append (c : ascii) (a b : string) :
  has_char c (a ++ b) = has_char c a || has_char c b.
Proof.
  induction a as [|x a IH]; simpl; [reflexivity|].
  now rewrite IH, orb_assoc.
Qed.

Lemma cut_first_at (c : ascii) (l r : string) :
  has_char c l = false -> cut_first c (l ++ String c r) = Some (l, r).
Proof.
  induction l as [|x l IH]; simpl.
  - intros _. now rewrite Ascii.eqb_refl.
  - intros H. apply orb_false_iff in H. destruct H as [Hx Hl].
    now rewrite Hx, (IH Hl).
Qed.

Lemma cut_last_none (c : ascii) (s : string) :
  has_char c s = false -> cut_last c s = None.
Proof.
  induction s as [|x s IH]; simpl; [reflexivity|].
  intros H. apply orb_false_iff in H. destruct H as [Hx Hs].
  now rewrite (IH Hs), Hx.
Qed.

Lemma cut_last_at (c : ascii) (l r : string) :
  has_char c r = false -> cut_last c (l ++ String c r) = Some (l, r).
Proof.
  intros Hr. induction l as [|x l IH]; simpl.
  - now rewrite (cut_last_none _ _ Hr), Ascii.eqb_refl.
  - now rewrite IH.
Qed.

Lemma cut_first_found (c : ascii) (s : string) :
  has_char c s = true -> exists l r, cut_first c s = Some (l, r).
Proof.
  induction s as [|x s IH]; simpl; [discriminate|].
  destruct (Ascii.eqb x c); simpl; [intros _; eauto|].
  intros H. destruct (IH H) as (l & r & ->). eauto.
Qed.

Lemma cut_last_found (c : ascii) (s : string) :
  has_char c s = true -> exists l r, cut_last c s = Some (l, r).
Proof.
  induction s as [|x s IH]; simpl; [discriminate|].
  destruct (has_char c s) eqn:Hs.
  - intros _. destruct (IH eq_refl) as (l & r & ->). eauto.
  - rewrite orb_false_r. intros ->. rewrite (cut_last_none _ _ Hs). eauto.
Qed.

Lemma lstrip_append (c : ascii) (h q : string) :
  isspace c = false -> lstrip (h ++ String c q) = lstrip h ++ String c q.
Proof.
  intros Hc. induction h as [|x h IH]; simpl.
  - now rewrite Hc.
  - destruct (isspace x); [exact IH|reflexivity].
Qed.

Lemma rstrip_append (c : ascii) (h q : string) :
  isspace c = false -> rstrip (h ++ String c q) = h ++ String c (rstrip q).
Proof.
  intros Hc. induction h as [|x h IH].
  - simpl. destruct (rstrip q); [now rewrite Hc|reflexivity].
  - cbn [append rstrip]. rewrite IH. destruct h; reflexivity.
Qed.

Lemma lstrip_idempotent (s : string) : lstrip (lstrip s) = lstrip s.
Proof.
  induction s as [|x s IH]; simpl; [reflexivity|].
  destruct (isspace x) eqn:Hx; [exact IH|]. simpl. now rewrite Hx.
Qed.

Lemma rstrip_idempotent (s : string) : rstrip (rstrip s) = rstrip s.
Proof.
  induction s as [|x s IH]; simpl; [reflexivity|].
  destruct (rstrip s) as [|y r] eqn:Hr.
  - destruct (isspace x) eqn:Hx; simpl; [reflexivity|now rewrite Hx].
  - cbn [rstrip]. cbn [rstrip] in IH. now rewrite IH.
Qed.

Lemma lstrip_rstrip (s : string) : lstrip (rstrip s) = rstrip (lstrip s).
Proof.
  induction s as [|x s IH]; [reflexivity|].
  cbn [lstrip rstrip]. destruct (isspace x) eqn:Hx.
  - rewrite <- IH. destruct (rstrip s) as [|y r]; simpl; [reflexivity|].
    now rewrite Hx.
  - cbn [rstrip]. destruct (rstrip s) as [|y r]; simpl; now rewrite Hx.
Qed.

Lemma strip_lstrip (s : string) : strip (lstrip s) = strip s.
Proof. unfold strip. now rewrite lstrip_idempotent. Qed.

Lemma strip_rstrip (s : string) : strip (rstrip s) = strip s.
Proof. unfold strip. now rewrite lstrip_rstrip, rstrip_idempotent. Qed.

Lemma has_char_lstrip (c : ascii) (s : string) :
  has_char c s = false -> has_char c (lstrip s) = false.
Proof.
  induction s as [|x s IH]; simpl; [reflexivity|].
  intros H. destruct (isspace x); [|exact H].
  apply orb_false_iff in H. now apply IH.
Qed.

Lemma has_char_rstrip (c : ascii) (s : string) :
  has_char c s = false -> has_char c (rstrip s) = false.
Proof.
  induction s as [|x s IH]; simpl; [reflexivity|].
  intros H. apply orb_false_iff in H. destruct H as [Hx Hs].
  specialize (IH Hs). destruct (rstrip s) as [|y r].
  - destruct (isspace x); simpl; [reflexivity|now rewrite Hx].
  - cbn [has_char]. cbn [has_char] in IH. now rewrite Hx, IH.
Qed.

Lemma has_char_strip (c : ascii) (s : string) :
  has_char c s = false -> has_char c (strip s) = false.
Proof. intros H. unfold strip. now apply has_char_rstrip, has_char_lstrip. Qed.

(** ** The URL shorthand, in general *)

(** The splitter on a string, in closed form: the cut at the last [@],
    then the cut of the left part at the first [/]. *)
Lemma get_url_host_splitted_string (tr : dict) (s : string) :
  dict_get tr "public" = Some (VStr s) ->
  get_url_host_splitted tr =
  if s =? "" then Return (VStr "", "", VInt 0)
  else
    let host_expose :=
      match cut_last "@" s with
      | Some (l, r) => (strip l, VStr (strip r))
      | None => (s, VInt 0)
      end in
    match cut_first "/" (fst host_expose) with
    | Some (l, r) => Return (VStr (strip l), "/" ++ strip r, snd host_expose)
    | None => Return (VStr (fst host_expose), "", snd host_expose)
    end.
Proof.
  intros Hget. unfold get_url_host_splitted.
  rewrite (dict_get_default_some _ _ _ _ Hget). cbn [truthy].
  destruct (s =? "") eqn:Es.
  - apply String.eqb_eq in Es. subst s. reflexivity.
  - cbn [negb str_in bind]. rewrite contains_char.
    assert (Hslash : forall (host : string) (expose : value),
      (has_slash <- str_in "/" (VStr host) ;;
       if has_slash : bool then
         ' (a, b) <- unpack2 (map strip (split1 "/" host)) ;;
         Return (VStr a, "/" ++ b, expose)
       else Return (VStr host, "", expose)) =
      match cut_first "/" host with
      | Some (l, r) => Return (VStr (strip l), "/" ++ strip r, expose)
      | None => Return (VStr host, "", expose)
      end).
    { intros host expose. cbn [str_in bind]. rewrite contains_char. unfold split1.
      destruct (has_char "/" host) eqn:Hh.
      - destruct (cut_first_found _ _ Hh) as (l & r & ->). reflexivity.
      - destruct (cut_first "/" host) as [[l r]|] eqn:Hc; [|reflexivity].
        exfalso. clear - Hh Hc. revert l r Hc.
        induction host as [|x host IH]; simpl; intros l r Hc; [discriminate|].
        simpl in Hh. apply orb_false_iff in Hh. destruct Hh as [Hx Hh].
        rewrite Hx in Hc.
        destruct (cut_first "/" host) as [[l' r']|]; [|discriminate].
        exact (IH Hh _ _ eq_refl). }
    destruct (has_char "@" s) eqn:Hat.
    + unfold rsplit1. destruct (cut_last_found _ _ Hat) as (l & r & ->).
      cbn [map unpack2 bind fst snd]. apply Hslash.
    + rewrite (cut_last_none _ _ Hat). cbn [bind fst snd]. apply Hslash.
Qed.

Lemma get_url_host_splitted_shape (tr : dict)
    (host : value) (prefix : string) (expose : value) :
  get_url_host_splitted tr = Return (host, prefix, expose) ->
  (prefix = "" \/ exists rest, prefix = "/" ++ rest)
  /\ (expose = VInt 0 \/ exists e, expose = VStr e).
Proof.
  unfold get_url_host_splitted.
  destruct (truthy _); [|intros [= <- <- <-]; split; left; reflexivity].
  destruct (str_in "@" _) as [[|]|]; cbn [bind]; try discriminate.
  - destruct (dict_get_default tr "public" (VStr "")) as [s| | | |];
      cbn [bind]; try discriminate.
    destruct (unpack2 _) as [[a b]|]; cbn [bind]; [|discriminate].
    cbn [str_in bind]. destruct (contains "/" a).
    + destruct (unpack2 _) as [[a' b']|]; cbn [bind]; [|discriminate].
      intros [= <- <- <-]. split; right; eexists; reflexivity.
    + intros [= <- <- <-]. split; [left; reflexivity|right; eexists; reflexivity].
  - destruct (str_in "/" _) as [[|]|]; cbn [bind]; try discriminate.
    + destruct (dict_get_default tr "public" (VStr "")) as [s| | | |];
        try discriminate.
      destruct (unpack2 _) as [[a' b']|]; cbn [bind]; [|discriminate].
      intros [= <- <- <-]. split; [right; eexists; reflexivity|left; reflexivity].
    + intros [= <- <- <-]. split; left; reflexivity.
Qed.

Lemma get_url_host_splitted_typed (tr : dict) :
  absent_or_str (dict_get tr "public") = true ->
  exists host prefix expose,
    get_url_host_splitted tr = Return (VStr host, prefix, expose).
Proof.
  destruct (dict_get tr "public") as [[s| | | |]|] eqn:Hget; try discriminate;
    intros _.
  - rewrite (get_url_host_splitted_string _ _ Hget).
    destruct (s =? ""); [eauto|]. cbv zeta.
    destruct (cut_first _ _) as [[l r]|]; eauto.
  - unfold get_url_host_splitted, dict_get_default. rewrite Hget.
    exists "", "", (VInt 0). reflexivity.
Qed.

(** X1: when [public] is a string or is missing the splitter never
    raises, and a missing [public] gives the empty host, the empty prefix
    and the expose value 0; whatever the entry, a prefix it returns is
    empty or starts with [/], and an expose value it returns is the
    integer 0 or a string. *)
Theorem url_split_total_and_shaped (tr : dict) :
  (absent_or_str (dict_get tr "public") = true ->
     exists host prefix expose,
       get_url_host_splitted tr = Return (VStr host, prefix, expose))
  /\ (dict_get tr "public" = None ->
        get_url_host_splitted tr = Return (VStr "", "", VInt 0))
  /\ (forall host prefix expose,
        get_url_host_splitted tr = Return (host, prefix, expose) ->
        (prefix = "" \/ exists rest, prefix = "/" ++ rest)
        /\ (expose = VInt 0 \/ exists e, expose = VStr e)).
Proof.
  split; [apply get_url_host_splitted_typed|]. split.
  - intros Hnone. unfold get_url_host_splitted, dict_get_default.
    rewrite Hnone. reflexivity.
  - apply get_url_host_splitted_shape.
Qed.

Lemma url_split_total_and_shaped_witness :
  exists host prefix expose,
    get_url_host_splitted [("public", VStr "a.test/x@80")]
      = Return (VStr host, prefix, expose)
    /\ (prefix = "" \/ exists rest, prefix = "/" ++ rest).
Proof.
  destruct (url_split_total_and_shaped [("public", VStr "a.test/x@80")])
    as (Htotal & _ & Hshape).
  destruct (Htotal eq_refl) as (host & prefix & expose & E).
  exists host, prefix, expose. split; [exact E|].
  exact (proj1 (Hshape _ _ _ E)).
Defined.

Lemma cut_first_none (c : ascii) (s : string) :
  has_char c s = false -> cut_first c s = None.
Proof.
  induction s as [|x s IH]; simpl; [reflexivity|].
  intros H. apply orb_false_iff in H. destruct H as [Hx Hs].
  now rewrite Hx, (IH Hs).
Qed.

Lemma eqb_append_char (a : string) (c : ascii) (b : string) :
  (a ++ String c b =? "") = false.
Proof. destruct a; reflexivity. Qed.

(** C1, amended: on a string with an [@] the splitter cuts at the last
    [@].  The text after it, stripped of surrounding white space, is the
    expose value, held as a string; only the text before it, stripped, is
    cut at its first [/] into host and prefix, each stripped again, the
    prefix with a leading [/] put back; without a [/] there, that text is
    the host and the prefix is empty.  So ["host.example.com@8080/api"]
    yields host [host.example.com], expose value [8080/api] and no prefix,
    and it is ["host.example.com/api@8080"] that yields host
    [host.example.com], expose value [8080] and prefix [/api]. *)
Theorem url_split_rule (tr : dict) (a p : string) :
  dict_get tr "public" = Some (VStr (a ++ "@" ++ p)) ->
  has_char "@" p = false ->
  (forall h q,
      strip a = h ++ "/" ++ q ->
      has_char "/" h = false ->
      get_url_host_splitted tr =
      Return (VStr (strip h), "/" ++ strip q, VStr (strip p)))
  /\ (has_char "/" (strip a) = false ->
      get_url_host_splitted tr = Return (VStr (strip a), "", VStr (strip p)))
  /\ get_url_host_splitted [("public", VStr "host.example.com@8080/api")]
     = Return (VStr "host.example.com", "", VStr "8080/api")
  /\ get_url_host_splitted [("public", VStr "host.example.com/api@8080")]
     = Return (VStr "host.example.com", "/api", VStr "8080").
Proof.
  intros Hget Hp.
  assert (E : get_url_host_splitted tr =
              match cut_first "/" (strip a) with
              | Some (l, r) => Return (VStr (strip l), "/" ++ strip r, VStr (strip p))
              | None => Return (VStr (strip a), "", VStr (strip p))
              end).
  { rewrite (get_url_host_splitted_string _ _ Hget). cbn [append].
    now rewrite eqb_append_char, (cut_last_at _ _ _ Hp). }
  split; [|split; [|split; reflexivity]].
  - intros h q Hs Hh. rewrite E, Hs. cbn [append].
    now rewrite (cut_first_at _ _ _ Hh).
  - intros Hn. now rewrite E, (cut_first_none _ _ Hn).
Qed.

Lemma url_split_rule_witness :
  get_url_host_splitted [("public", VStr " x /y@z/w@ 9 ")]
    = Return (VStr "x", "/y@z/w", VStr "9")
  /\ get_url_host_splitted [("public", VStr "a.test@ 80")]
    = Return (VStr "a.test", "", VStr "80").
Proof.
  split.
  - apply (proj1 (url_split_rule [("public", VStr " x /y@z/w@ 9 ")]
                    " x /y@z/w" " 9 " eq_refl eq_refl) "x " "y@z/w");
      reflexivity.
  - apply (proj1 (proj2 (url_split_rule [("public", VStr "a.test@ 80")]
                           "a.test" " 80" eq_refl eq_refl))).
    reflexivity.
Defined.

(** X2: the shorthand with a port.  When the text after the last [@]
    holds no [@] and the host holds no [/], [host/prefix@port] splits into
    the three parts, each stripped of surrounding white space, the prefix
    with its leading [/] back; [host@port] splits into host and port and
    leaves the prefix empty. *)
Theorem url_shorthand_with_port (tr : dict) (h q p : string) :
  has_char "/" h = false ->
  has_char "@" p = false ->
  (dict_get tr "public" = Some (VStr (h ++ "/" ++ q ++ "@" ++ p)) ->
     get_url_host_splitted tr = Return (VStr (strip h), "/" ++ strip q, VStr (strip p)))
  /\ (dict_get tr "public" = Some (VStr (h ++ "@" ++ p)) ->
     get_url_host_splitted tr = Return (VStr (strip h), "", VStr (strip p))).
Proof.
  intros Hh Hp. split; intros Hget;
    rewrite (get_url_host_splitted_string _ _ Hget); cbn [append].
  - rewrite eqb_append_char.
    change (h ++ String "/" (q ++ String "@" p))
      with (h ++ (String "/" q ++ String "@" p)).
    rewrite <- append_assoc, (cut_last_at _ _ _ Hp). cbv zeta. cbn [fst snd].
    unfold strip at 1. rewrite lstrip_append, rstrip_append by reflexivity.
    rewrite cut_first_at by (now apply has_char_lstrip).
    now rewrite strip_lstrip, strip_rstrip.
  - rewrite eqb_append_char, (cut_last_at _ _ _ Hp). cbv zeta. cbn [fst snd].
    now rewrite cut_first_none by (now apply has_char_strip).
Qed.

Lemma url_shorthand_with_port_witness :
  get_url_host_splitted [("public", VStr " a.test / v1 @ 80 ")]
    = Return (VStr "a.test", "/v1", VStr "80")
  /\ get_url_host_splitted [("public", VStr "a.test@80")]
    = Return (VStr "a.test", "", VStr "80").
Proof.
  split.
  - exact (proj1 (url_shorthand_with_port
                    [("public", VStr " a.test / v1 @ 80 ")]
                    " a.test " " v1 " " 80 " eq_refl eq_refl) eq_refl).
  - exact (proj2 (url_shorthand_with_port
                    [("public", VStr "a.test@80")]
                    "a.test" "" "80" eq_refl eq_refl) eq_refl).
Defined.

(** X3: the shorthand without a port.  When the text holds no [@] and
    the host no [/], [host/prefix] splits into host and prefix, both
    stripped, and the expose value stays 0; a bare host is kept as it is
    written, white space included. *)
Theorem url_shorthand_without_port (tr : dict) (h q : string) :
  has_char "@" h = false ->
  has_char "/" h = false ->
  (has_char "@" q = false ->
   dict_get tr "public" = Some (VStr (h ++ "/" ++ q)) ->
     get_url_host_splitted tr = Return (VStr (strip h), "/" ++ strip q, VInt 0))
  /\ (dict_get tr "public" = Some (VStr h) ->
     get_url_host_splitted tr = Return (VStr h, "", VInt 0)).
Proof.
  intros Hat Hslash. split.
  - intros Hq Hget. rewrite (get_url_host_splitted_string _ _ Hget). cbn [append].
    rewrite eqb_append_char, cut_last_none.
    + cbv zeta. cbn [fst snd]. now rewrite (cut_first_at _ _ _ Hslash).
    + rewrite has_char_append. cbn [has_char]. now rewrite Hat, Hq.
  - intros Hget. rewrite (get_url_host_splitted_string _ _ Hget).
    destruct (h =? "") eqn:E; [apply String.eqb_eq in E; now subst h|].
    rewrite (cut_last_none _ _ Hat). cbv zeta. cbn [fst snd].
    now rewrite (cut_first_none _ _ Hslash).
Qed.

Lemma url_shorthand_without_port_witness :
  get_url_host_splitted [("public", VStr "a.test / v1 ")]
    = Return (VStr "a.test", "/v1", VInt 0)
  /\ get_url_host_splitted [("public", VStr " a.test ")]
    = Return (VStr " a.test ", "", VInt 0).
Proof.
  split.
  - exact (proj1 (url_shorthand_without_port
                    [("public", VStr "a.test / v1 ")] "a.test " " v1 "
                    eq_refl eq_refl) eq_refl eq_refl).
  - exact (proj2 (url_shorthand_without_port
                    [("public", VStr " a.test ")] " a.test " ""
                    eq_refl eq_refl) eq_refl).
Defined.

(** ** Flattening, in general *)

Lemma dict_has_In (d : dict) (k : string) :
  dict_has d k = true <-> In k (map fst d).
Proof.
  induction d as [|[k0 v0] d IH]; simpl; [split; [discriminate|tauto]|].
  rewrite orb_true_iff, IH, String.eqb_eq. tauto.
Qed.

Lemma dict_set_fresh (d : dict) (k : string) (v : value) :
  dict_has d k = false -> dict_set d k v = (d ++ [(k, v)])%list.
Proof.
  induction d as [|[k0 v0] d IH]; simpl; [reflexivity|].
  intros H. apply orb_false_iff in H. destruct H as [H0 Hd].
  now rewrite H0, (IH Hd).
Qed.

Lemma dict_set_keys (d : dict) (k : string) (v : value) :
  map fst (dict_set d k v) =
  if dict_has d k then map fst d else (map fst d ++ [k])%list.
Proof.
  induction d as [|[k0 v0] d IH]; simpl; [reflexivity|].
  destruct (k0 =? k) eqn:E; simpl.
  - apply String.eqb_eq in E. now subst k0.
  - rewrite IH. now destruct (dict_has d k).
Qed.

Lemma dict_set_NoDup (d : dict) (k : string) (v : value) :
  NoDup (map fst d) -> NoDup (map fst (dict_set d k v)).
Proof.
  intros Hd. rewrite dict_set_keys. destruct (dict_has d k) eqn:E; [exact Hd|].
  apply NoDup_app; [exact Hd|repeat constructor; simpl; tauto|].
  intros x Hx [<-|[]]. apply dict_has_In in Hx. congruence.
Qed.

Lemma dict_set_Forall (Q : value -> Prop) (d : dict) (k : string) (v : value) :
  Forall (fun kv => Q (snd kv)) d -> Q v ->
  Forall (fun kv => Q (snd kv)) (dict_set d k v).
Proof.
  intros Hd Hv. induction d as [|[k0 v0] d IH]; simpl.
  - now repeat constructor.
  - inversion Hd as [|? ? H0 Hd']; subst.
    destruct (k0 =? k); constructor; auto.
Qed.

Lemma fold_left_invariant {A B : Type} (I : A -> Prop) (f : A -> B -> A)
    (l : list B) (a : A) :
  (forall a x, In x l -> I a -> I (f a x)) -> I a -> I (fold_left f l a).
Proof.
  revert a. induction l as [|x l IH]; intros a Hf Ha; simpl; [exact Ha|].
  apply IH.
  - intros a' y Hy. apply Hf. now right.
  - apply Hf; [now left|exact Ha].
Qed.

Lemma dotted_notation_NoDup (v : value) : NoDup (map fst (dotted_notation v)).
Proof.
  destruct v as [s|z|b|l|d]; simpl; try constructor.
  apply (fold_left_invariant (fun res => NoDup (map fst res))); [|constructor].
  intros res kv _ Hres. destruct (snd kv);
    try (now apply dict_set_NoDup).
  apply (fold_left_invariant (fun res => NoDup (map fst res))); [|exact Hres].
  intros res' kv2 _. apply dict_set_NoDup.
Qed.

Lemma dotted_notation_flat (v : value) :
  Forall (fun kv => is_dict (snd kv) = false) (dotted_notation v).
Proof.
  revert v. fix IH 1. intros [s|z|b|l|d]; simpl; try constructor.
  assert (Hd : Forall
                 (fun kv => Forall (fun kv' => is_dict (snd kv') = false)
                                   (dotted_notation (snd kv))) d).
  { induction d as [|[k v] d IHd]; constructor; [apply IH|exact IHd]. }
  clear IH. revert Hd.
  generalize (@nil (string * value)) (Forall_nil (fun kv : string * value => is_dict (snd kv) = false)).
  induction d as [|[k v] d IHd]; intros res Hres Hd; simpl; [exact Hres|].
  inversion Hd as [|? ? Hv Hd']; subst. apply IHd; [|exact Hd'].
  destruct v as [s|z|b|l|d']; cbn [snd fst];
    try (apply (dict_set_Forall (fun v => is_dict v = false)); [exact Hres|reflexivity]).
  cbn [snd] in Hv. revert Hv. generalize (dotted_notation (VDict d')).
  intros L HL. revert res Hres.
  induction HL as [|kv2 L Hkv2 HL IHL]; intros res Hres; simpl; [exact Hres|].
  apply IHL. apply (dict_set_Forall (fun v => is_dict v = false)); assumption.
Qed.

Lemma fold_dict_set_fresh (l acc : dict) :
  NoDup (map fst acc ++ map fst l) ->
  fold_left (fun res kv => dict_set res (fst kv) (snd kv)) l acc = (acc ++ l)%list.
Proof.
  revert acc. induction l as [|[k v] l IH]; intros acc Hnd; simpl.
  - now rewrite app_nil_r.
  - rewrite dict_set_fresh.
    + rewrite IH; [now rewrite <- app_assoc|].
      rewrite map_app. simpl. now rewrite <- app_assoc.
    + destruct (dict_has acc k) eqn:E; [|reflexivity].
      apply dict_has_In in E. simpl in Hnd.
      apply NoDup_remove_2 in Hnd. exfalso. apply Hnd.
      apply in_or_app. now left.
Qed.

(** A mapping without nested mappings and with distinct keys is its own
    flattening. *)
Lemma dict_to_dotted_notation_flat_id (d : dict) :
  NoDup (map fst d) ->
  Forall (fun kv => is_dict (snd kv) = false) d ->
  dict_to_dotted_notation d = d.
Proof.
  intros Hnd Hflat. unfold dict_to_dotted_notation. simpl.
  rewrite <- (fold_dict_set_fresh d []) at 2 by exact Hnd.
  generalize (@nil (string * value)).
  induction Hflat as [|[k v] d Hv Hflat IH]; intros acc; simpl; [reflexivity|].
  inversion Hnd; subst. rewrite <- IH by assumption.
  destruct v; try reflexivity. discriminate Hv.
Qed.

(** X4: the flattening of any mapping has distinct keys and no mapping
    among its values, and flattening it again changes nothing; a mapping
    that already has distinct keys and no nested mapping is returned as it
    is. *)
Theorem flattening_is_flat_and_idempotent (d : dict) :
  NoDup (map fst (dict_to_dotted_notation d))
  /\ Forall (fun kv => is_dict (snd kv) = false) (dict_to_dotted_notation d)
  /\ dict_to_dotted_notation (dict_to_dotted_notation d) = dict_to_dotted_notation d
  /\ (NoDup (map fst d) ->
      Forall (fun kv => is_dict (snd kv) = false) d ->
      dict_to_dotted_notation d = d).
Proof.
  split; [apply dotted_notation_NoDup|].
  split; [apply dotted_notation_flat|].
  split; [|apply dict_to_dotted_notation_flat_id].
  apply dict_to_dotted_notation_flat_id;
    [apply dotted_notation_NoDup|apply dotted_notation_flat].
Qed.

Lemma flattening_is_flat_and_idempotent_witness :
  dict_to_dotted_notation [("a", VInt 1); ("b", VStr "x")]
  = [("a", VInt 1); ("b", VStr "x")].
Proof.
  apply (flattening_is_flat_and_idempotent [("a", VInt 1); ("b", VStr "x")]).
  - repeat constructor; simpl; intuition discriminate.
  - repeat constructor.
Defined.

Lemma NoDup_map_prefixed (k : string) (l : list string) :
  NoDup l -> NoDup (map (fun s => k ++ "." ++ s) l).
Proof.
  induction 1 as [|x l Hx Hl IH]; simpl; constructor; [|exact IH].
  intros Hin. apply in_map_iff in Hin. destruct Hin as (y & Hy & Hin).
  apply append_cancel_l in Hy. injection Hy as ->. contradiction.
Qed.

Lemma fold_left_over_map {A B C : Type} (f : A -> B -> A) (g : C -> B)
    (l : list C) (a : A) :
  fold_left f (map g l) a = fold_left (fun a x => f a (g x)) l a.
Proof.
  revert a. induction l as [|x l IH]; intros a; simpl; [reflexivity|apply IH].
Qed.

(** X5: a mapping nested under a key contributes its own flattening with
    that key and a dot put before every key, in the same order; an empty
    nested mapping contributes nothing. *)
Theorem nesting_prefixes_keys (k : string) (d : dict) :
  dict_to_dotted_notation [(k, VDict d)] =
  map (fun kv => (k ++ "." ++ fst kv, snd kv)) (dict_to_dotted_notation d).
Proof.
  unfold dict_to_dotted_notation at 1.
  cbn [dotted_notation fold_left snd fst].
  fold (dict_to_dotted_notation d).
  set (g := fun kv : string * value => (k ++ "." ++ fst kv, snd kv)).
  transitivity
    (fold_left (fun res kv => dict_set res (fst kv) (snd kv))
               (map g (dict_to_dotted_notation d)) []).
  - rewrite fold_left_over_map. reflexivity.
  - apply (fold_dict_set_fresh (map g (dict_to_dotted_notation d)) []).
    cbn [map List.app]. rewrite map_map. cbn [g fst].
    rewrite <- (map_map fst (fun s => k ++ "." ++ s)).
    apply NoDup_map_prefixed, dotted_notation_NoDup.
Qed.

(** X6: a field given as a mapping with distinct keys and no nested
    mapping normalizes to one [key=value] string per entry, in the order
    of the entries; a field that is missing normalizes to the empty
    list. *)
Theorem flat_mapping_renders_lines (tr : dict) (element : string) :
  (forall d,
      dict_get tr element = Some (VDict d) ->
      NoDup (map fst d) ->
      Forall (fun kv => is_dict (snd kv) = false) d ->
      get_complex_by_type tr element =
      Return (map (fun kv => VStr (fst kv ++ "=" ++ str (snd kv))) d))
  /\ (dict_get tr element = None -> get_complex_by_type tr element = Return []).
Proof.
  split.
  - intros d Hget Hnd Hflat. unfold get_complex_by_type.
    rewrite (dict_get_default_some _ _ _ _ Hget).
    now rewrite (dict_to_dotted_notation_flat_id _ Hnd Hflat).
  - intros Hnone. unfold get_complex_by_type, dict_get_default.
    now rewrite Hnone.
Qed.

Lemma flat_mapping_renders_lines_witness :
  get_complex_by_type
    [("envs", VDict [("PORT", VInt 80); ("DEBUG", VBool true); ("NAME", VStr "web")])]
    "envs"
  = Return [VStr "PORT=80"; VStr "DEBUG=True"; VStr "NAME=web"].
Proof.
  apply (proj1 (flat_mapping_renders_lines
           [("envs", VDict [("PORT", VInt 80); ("DEBUG", VBool true); ("NAME", VStr "web")])]
           "envs")
           [("PORT", VInt 80); ("DEBUG", VBool true); ("NAME", VStr "web")]).
  - reflexivity.
  - repeat constructor; simpl; intuition discriminate.
  - repeat constructor.
Defined.

(** ** Building a descriptor, in general *)

Lemma get_complex_by_type_shape (tr : dict) (element : string) :
  (shape_ok tr element = true /\ exists l, get_complex_by_type tr element = Return l)
  \/ (shape_ok tr element = false
      /\ get_complex_by_type tr element =
         Raise (TradoException ("`" ++ element ++ "` is not a list or map, key confilict"))).
Proof.
  unfold shape_ok, get_complex_by_type, dict_get_default.
  destruct (dict_get tr element) as [[s|z|b|l|d]|]; cbn;
    first [left; split; [reflexivity|eexists; reflexivity]
          |right; split; reflexivity].
Qed.

(** X7: what holds of every descriptor [from_dict] returns: it carries
    the name it was given, its restart policy is one of the four, its
    prefix is empty or starts with [/], and the keys missing from the
    entry have their defaults: restart [always], an empty image, the two
    flags false. *)
Theorem from_dict_invariants (service : string) (tr : dict) (gen : Trado) :
  from_dict service tr = Return gen ->
  name gen = service
  /\ In (restart gen) restart_values
  /\ (url_prefix gen = "" \/ exists rest, url_prefix gen = "/" ++ rest)
  /\ (url_expose gen = VInt 0 \/ exists e, url_expose gen = VStr e)
  /\ (dict_get tr "restart" = None -> restart gen = "always")
  /\ (dict_get tr "image" = None -> image gen = VStr "")
  /\ (dict_get tr "doppler" = None -> doppler gen = VBool false)
  /\ (dict_get tr "watchtower" = None -> watchtower gen = VBool false).
Proof.
  unfold from_dict.
  destruct (get_url_host_splitted tr) as [[[uh up] ue]|] eqn:Hu; [|discriminate].
  destruct (get_url_host_splitted_shape _ _ _ _ Hu) as [Hup Hue].
  cbn [bind].
  repeat (destruct (get_complex_by_type tr _) as [?l|]; cbn [bind]; [|discriminate]).
  destruct (dict_get_default tr "restart" (VStr "always")) as [r| | | |] eqn:Hr;
    cbn [bind]; try discriminate.
  destruct (mem (lower r) restart_values) eqn:Hmem; cbn [negb]; [|discriminate].
  intros [= <-]. cbn [name restart url_prefix url_expose image doppler watchtower].
  split; [reflexivity|]. split; [now apply mem_In|].
  split; [exact Hup|]. split; [exact Hue|].
  unfold dict_get_default in *.
  repeat split; intros Hnone; rewrite Hnone in *; try reflexivity.
  now injection Hr as <-.
Qed.

Lemma from_dict_invariants_witness :
  exists gen,
    from_dict "web" [("public", VStr "a.test/x")] = Return gen
    /\ name gen = "web" /\ restart gen = "always".
Proof.
  eexists. split; [reflexivity|].
  destruct (from_dict_invariants "web" [("public", VStr "a.test/x")] _ eq_refl)
    as (Hname & _ & _ & _ & Hrestart & _).
  split; [exact Hname|exact (Hrestart eq_refl)].
Defined.

Lemma from_dict_well_typed (service : string) (tr : dict) :
  well_typed tr = true ->
  ((exists gen, from_dict service tr = Return gen) <->
   forallb (shape_ok tr) complex_fields && restart_ok tr = true)
  /\ (forall e, from_dict service tr = Raise e -> exists msg, e = TradoException msg).
Proof.
  unfold well_typed. intros Hwt. apply andb_true_iff in Hwt.
  destruct Hwt as [Hpub Hres].
  destruct (get_url_host_splitted_typed tr Hpub) as (uh & up & ue & Hu).
  unfold from_dict, complex_fields, restart_ok. rewrite Hu. cbn [bind forallb].
  destruct (get_complex_by_type_shape tr "labels") as [[-> [l1 ->]]|[-> ->]];
    cbn [bind andb];
    [|split; [split; [intros [? H]; discriminate H|discriminate]
             |intros e [= <-]; eexists; reflexivity]].
  destruct (get_complex_by_type_shape tr "envs") as [[-> [l2 ->]]|[-> ->]];
    cbn [bind andb];
    [|split; [split; [intros [? H]; discriminate H|discriminate]
             |intros e [= <-]; eexists; reflexivity]].
  destruct (get_complex_by_type_shape tr "volumes") as [[-> [l3 ->]]|[-> ->]];
    cbn [bind andb];
    [|split; [split; [intros [? H]; discriminate H|discriminate]
             |intros e [= <-]; eexists; reflexivity]].
  destruct (get_complex_by_type_shape tr "ports") as [[-> [l4 ->]]|[-> ->]];
    cbn [bind andb];
    [|split; [split; [intros [? H]; discriminate H|discriminate]
             |intros e [= <-]; eexists; reflexivity]].
  destruct (get_complex_by_type_shape tr "networks") as [[-> [l5 ->]]|[-> ->]];
    cbn [bind andb];
    [|split; [split; [intros [? H]; discriminate H|discriminate]
             |intros e [= <-]; eexists; reflexivity]].
  unfold dict_get_default.
  destruct (dict_get tr "restart") as [[r| | | |]|]; try discriminate Hres;
    cbn [bind].
  - destruct (mem (lower r) restart_values); cbn [negb].
    + split; [split; [reflexivity|eexists; reflexivity]|discriminate].
    + split; [split; [intros [? H]; discriminate H|discriminate]
             |intros e [= <-]; eexists; reflexivity].
  - change (mem (lower "always") restart_values) with true. cbn [negb].
    split; [split; [reflexivity|eexists; reflexivity]|discriminate].
Qed.


(** X8: for an entry whose [public] and [restart] keys hold strings or
    are missing, [from_dict] returns exactly when each of the five complex
    fields is missing, a list, a mapping or a string and the restart value
    is missing or valid; when it does not return, what it raises is a
    [TradoException]. *)
Theorem from_dict_succeeds_iff (service : string) (tr : dict) :
  well_typed tr = true ->
  ((exists gen, from_dict service tr = Return gen) <->
   forallb (shape_ok tr) complex_fields && restart_ok tr = true)
  /\ (forall e, from_dict service tr = Raise e -> exists msg, e = TradoException msg).
Proof. apply from_dict_well_typed. Qed.

Lemma from_dict_succeeds_iff_witness :
  (exists gen, from_dict "web" [("ports", VStr "80:80"); ("restart", VStr "No")]
               = Return gen)
  /\ ~ (exists gen, from_dict "web" [("ports", VInt 80)] = Return gen).
Proof.
  split.
  - apply (proj1 (from_dict_succeeds_iff "web"
                    [("ports", VStr "80:80"); ("restart", VStr "No")] eq_refl)).
    reflexivity.
  - intros H.
    apply (proj1 (from_dict_succeeds_iff "web" [("ports", VInt 80)] eq_refl)) in H.
    discriminate H.
Defined.

(** ** Rendering, in general *)



Ltac distinct_keys :=
  repeat (constructor; [cbn [In]; intuition discriminate|]); constructor.

Lemma filter_keys_NoDup (p : string * value -> bool) (d : dict) :
  NoDup (map fst d) -> NoDup (map fst (filter p d)).
Proof.
  induction d as [|kv d IH]; simpl; [trivial|].
  intros Hnd. inversion Hnd as [|? ? Hk Hd]; subst.
  destruct (p kv); simpl; [|now apply IH].
  constructor; [|now apply IH].
  intros Hin. apply Hk. apply in_map_iff in Hin.
  destruct Hin as (kv' & <- & Hin). apply filter_In in Hin.
  apply in_map. tauto.
Qed.

(** X10: the mapping rendering returns has distinct keys, each one of
    [image], [labels], [volumes], [ports], [restart], [watchtower],
    [networks], [environment], and no value in it is falsy; the name, the
    three routing fields, [envs] and [doppler] are never among its keys. *)
Theorem rendered_mapping_fields (doppler_run : CompletedProcess) (self : Trado)
    (dt : dict) :
  to_dict doppler_run self = Return dt ->
  NoDup (map fst dt)
  /\ Forall (fun kv => In (fst kv) rendered_keys /\ truthy (snd kv) = true) dt
  /\ Forall (fun k => dict_get dt k = None)
            ["name"; "url_host"; "url_prefix"; "url_expose"; "envs"; "doppler"].
Proof.
  rewrite to_dict_spec.
  destruct (injected doppler_run self) as [names|e]; [|discriminate].
  intros H. apply Return_inj in H. subst dt.
  destruct (truthy (doppler self)) eqn:Ed, (truthy (watchtower self)) eqn:Ew;
    cbn [List.app]; (split; [|split]).
  all: try (apply filter_keys_NoDup; cbn [map fst]; distinct_keys).
  all: try (apply Forall_forall; intros kv Hin; apply filter_In in Hin;
            destruct Hin as [Hin Ht]; split; [|exact Ht];
            cbn [In] in Hin; unfold rendered_keys;
            repeat (destruct Hin as [<-|Hin];
                    [first [cbn [fst In]; tauto | cbn [snd] in Ht; congruence]|]);
            destruct Hin).
  all: repeat (constructor; [lookup_filtered; rewrite ?Ed; reflexivity|]);
    constructor.
Qed.

Lemma rendered_mapping_fields_witness :
  let web := mkTrado "web" (VStr "nginx") (VStr "a.test") "" (VInt 0) [] [] [] []
                     "always" (VBool false) (VBool false) [] in
  exists dt,
    to_dict (mkCompletedProcess 0 (Mapping [])) web = Return dt
    /\ NoDup (map fst dt) /\ dict_get dt "url_host" = None.
Proof.
  intros web. eexists. split; [reflexivity|].
  destruct (rendered_mapping_fields (mkCompletedProcess 0 (Mapping [])) web _ eq_refl)
    as (Hnd & _ & Hnone).
  split; [exact Hnd|].
  inversion Hnone as [|? ? _ Hrest]. inversion Hrest as [|? ? Hh _]. exact Hh.
Defined.

(** X11: a descriptor without a public host loses the labels of its
    entry: the rendered mapping has the watchtower label alone when the
    watchtower flag is falsy and no [labels] key when it is truthy, and
    its [networks] are those of the entry, untouched. *)
Theorem private_service_drops_labels (doppler_run : CompletedProcess)
    (self : Trado) (dt : dict) :
  truthy (url_host self) = false ->
  to_dict doppler_run self = Return dt ->
  dict_get dt "labels" =
    (if truthy (watchtower self) then None else Some (VList [watchtower_off]))
  /\ dict_get dt "networks" =
    (match trado_networks self with
     | [] => None
     | _ => Some (VList (trado_networks self))
     end).
Proof.
  intros Hh E. destruct (to_dict_returns _ _ _ E) as (_ & Hnet & Hlab).
  rewrite Hlab, Hnet, Hh. cbv zeta. cbn [List.app truthy].
  split; [now destruct (truthy (watchtower self))|now destruct (trado_networks self)].
Qed.

Lemma private_service_drops_labels_witness :
  let web := mkTrado "web" (VStr "nginx") (VStr "") "" (VInt 0)
                     [VStr "team=core"] [] [] [] "always"
                     (VBool false) (VBool true) [VStr "backend"] in
  exists dt,
    to_dict (mkCompletedProcess 0 (Mapping [])) web = Return dt
    /\ dict_get dt "labels" = None
    /\ dict_get dt "networks" = Some (VList [VStr "backend"]).
Proof.
  intros web. eexists. split; [reflexivity|].
  exact (private_service_drops_labels (mkCompletedProcess 0 (Mapping [])) web _ eq_refl eq_refl).
Defined.

(** X12: a rendered service is attached to the shared network exactly
    when the descriptor has a public host or its entry lists the network
    itself; with a public host, [traefik] comes last in the rendered
    [networks], after the networks of the entry. *)
Theorem attachment_of_rendered_service (doppler_run : CompletedProcess)
    (self : Trado) (dt : dict) :
  to_dict doppler_run self = Return dt ->
  attached dt = truthy (url_host self) || existsb (eq_str "traefik") (trado_networks self)
  /\ (truthy (url_host self) = true ->
      dict_get dt "networks" = Some (VList (trado_networks self ++ [VStr "traefik"])%list)).
Proof.
  intros E. destruct (to_dict_returns _ _ _ E) as (_ & Hnet & _).
  unfold attached. rewrite Hnet. cbv zeta.
  destruct (truthy (url_host self)); cbn [orb].
  - assert (Ht : truthy (VList (trado_networks self ++ [VStr "traefik"])%list) = true)
      by (now destruct (trado_networks self)).
    rewrite Ht. split; [|reflexivity].
    rewrite existsb_app. cbn. apply orb_true_r.
  - split; [|discriminate].
    now destruct (trado_networks self).
Qed.

Lemma attachment_of_rendered_service_witness :
  let web := mkTrado "web" (VStr "nginx") (VStr "a.test") "" (VInt 0)
                     [] [] [] [] "always" (VBool false) (VBool true)
                     [VStr "backend"] in
  exists dt,
    to_dict (mkCompletedProcess 0 (Mapping [])) web = Return dt
    /\ attached dt = true
    /\ dict_get dt "networks" = Some (VList [VStr "backend"; VStr "traefik"]).
Proof.
  intros web. eexists. split; [reflexivity|].
  destruct (attachment_of_rendered_service (mkCompletedProcess 0 (Mapping [])) web _ eq_refl)
    as [Hatt Hnet].
  split; [exact Hatt|exact (Hnet eq_refl)].
Defined.

(** X13: the [environment] of a rendered service is the entry's [envs],
    preceded, for a descriptor flagged for secrets, by the keys of the
    secrets payload that do not start with [DOPPLER], in the order of the
    payload; the key is missing when that list is empty.  Rendering a
    flagged descriptor returns only if the payload is a mapping whose keys
    are strings.  The image, the volumes, the ports and the restart policy
    pass through unchanged, each missing when it is falsy. *)
Theorem environment_and_plain_fields (doppler_run : CompletedProcess)
    (self : Trado) (dt : dict) :
  to_dict doppler_run self = Return dt ->
  dict_get dt "environment" =
    (let env := ((if truthy (doppler self)
                  then match stdout doppler_run with
                       | Mapping keys => filter (fun k => negb (reserved k)) keys
                       | _ => []
                       end
                  else []) ++ envs self)%list in
     if truthy (VList env) then Some (VList env) else None)
  /\ (truthy (doppler self) = true ->
      exists keys, stdout doppler_run = Mapping keys /\ forallb is_str keys = true)
  /\ dict_get dt "image" = (if truthy (image self) then Some (image self) else None)
  /\ dict_get dt "volumes" =
       (if truthy (VList (volumes self)) then Some (VList (volumes self)) else None)
  /\ dict_get dt "ports" =
       (if truthy (VList (ports self)) then Some (VList (ports self)) else None)
  /\ dict_get dt "restart" =
       (if truthy (VStr (restart self)) then Some (VStr (restart self)) else None).
Proof.
  rewrite to_dict_spec. unfold injected.
  destruct (truthy (doppler self)).
  - destruct (returncode doppler_run =? 0)%Z; [|discriminate].
    destruct (stdout doppler_run) as [keys| |]; cbn [secret_names];
      try discriminate.
    rewrite keep_names_spec.
    destruct (forallb is_str keys) eqn:Ek; [|discriminate].
    intros H. apply Return_inj in H. subst dt.
    destruct (truthy (watchtower self)); cbn [List.app];
      repeat apply conj;
      first [ lookup_filtered; reflexivity
            | intros _; exists keys; (split; [reflexivity|exact Ek]) ].
  - intros H. apply Return_inj in H. subst dt.
    destruct (truthy (watchtower self)); cbn [List.app];
      repeat apply conj; first [lookup_filtered; reflexivity | discriminate].
Qed.

Lemma environment_and_plain_fields_witness :
  let web := mkTrado "web" (VStr "nginx") (VStr "") "" (VInt 0)
                     [] [VStr "MODE=prod"] [] [] "always"
                     (VBool true) (VBool true) [] in
  let payload := Mapping [VStr "DOPPLER_PROJECT"; VStr "API_KEY"] in
  exists dt,
    to_dict (mkCompletedProcess 0 payload) web = Return dt
    /\ dict_get dt "environment" = Some (VList [VStr "API_KEY"; VStr "MODE=prod"]).
Proof.
  intros web payload. eexists. split; [reflexivity|].
  exact (proj1 (environment_and_plain_fields (mkCompletedProcess 0 payload) web _
                  eq_refl)).
Defined.

(** X14: the load-balancer port label is among the synthesized labels
    exactly when the expose value is truthy: no label under
    [traefik.http.services.] is synthesized for the expose value 0 or an
    empty port, and otherwise the one that carries the expose value is. *)
Theorem port_label_iff_expose (self : Trado) :
  let emitted := map namespaced (network_labels self) in
  (truthy (url_expose self) = false ->
     Forall (fun l => String.prefix "traefik.http.services." l = false) emitted)
  /\ (truthy (url_expose self) = true ->
        In ("traefik.http.services." ++ name self ++ ".loadbalancer.server.port="
            ++ str (url_expose self)) emitted).
Proof.
  intros emitted. subst emitted. unfold network_labels, namespaced.
  split; intros ->.
  - destruct (negb (url_prefix self =? "")); cbn [List.app map];
      repeat constructor.
  - cbn [List.app map]. right. left. reflexivity.
Qed.

Lemma port_label_iff_expose_witness :
  Forall (fun l => String.prefix "traefik.http.services." l = false)
    (map namespaced
       (network_labels
          (mkTrado "web" (VStr "") (VStr "a.test") "" (VStr "")
                   [] [] [] [] "always" (VBool false) (VBool false) []))).
Proof.
  apply (proj1 (port_label_iff_expose
           (mkTrado "web" (VStr "") (VStr "a.test") "" (VStr "")
                    [] [] [] [] "always" (VBool false) (VBool false) []))).
  reflexivity.
Defined.

(** ** Assembling, in general *)

Lemma loop_body_total (subprocess_run : string -> CompletedProcess)
    (st : loop_state) (service : string) (entry : value) (rendered : dict) :
  render subprocess_run service entry = Return rendered ->
  exists st', loop_body subprocess_run st service entry = ("", Return st').
Proof.
  unfold render, loop_body.
  destruct entry as [s|z|b|l|tr]; try discriminate.
  destruct (from_dict service tr) as [t|e]; [|discriminate]. cbn [bind].
  intros E. rewrite E.
  destruct (to_dict_returns _ _ _ E) as (_ & Hnet & _). cbv zeta in Hnet.
  rewrite Hnet.
  destruct (truthy (VList _)) eqn:En; [rewrite En|]; cbn [bind str_in];
    eexists; reflexivity.
Qed.

Lemma loop_total (subprocess_run : string -> CompletedProcess)
    (data : dict) (st : loop_state) :
  Forall (fun kv => exists r, render subprocess_run (fst kv) (snd kv) = Return r) data ->
  exists st', loop subprocess_run data st = ("", Return st').
Proof.
  intros H. revert st.
  induction H as [|[service entry] data [r Hr] _ IH]; intros st; simpl.
  - eexists. reflexivity.
  - cbn [fst snd] in Hr.
    destruct (loop_body_total subprocess_run st _ _ _ Hr) as [st1 ->].
    destruct (IH st1) as [st2 ->]. eexists. reflexivity.
Qed.

Lemma loop_renders_all (subprocess_run : string -> CompletedProcess)
    (data : dict) (st st' : loop_state) (err : string) :
  loop subprocess_run data st = (err, Return st') ->
  Forall (fun kv => exists r, render subprocess_run (fst kv) (snd kv) = Return r) data.
Proof.
  revert st st' err.
  induction data as [|[service entry] data IH]; intros st st' err; simpl;
    [constructor|].
  destruct (loop_body subprocess_run st service entry) as [err1 [st1|e]] eqn:Eb;
    [|intros H; discriminate H].
  destruct (loop_body_returns _ _ _ _ _ _ Eb) as (_ & rendered & Hr & _).
  destruct (loop subprocess_run data st1) as [err2 [st2|e]] eqn:El;
    [|intros H; discriminate H].
  intros _. constructor; [exists rendered; exact Hr|exact (IH _ _ _ El)].
Qed.

(** X15: the run returns a document exactly when every service of the
    source document renders, and then nothing has been written to the
    error stream. *)
Theorem run_returns_iff_all_render (subprocess_run : string -> CompletedProcess)
    (data : dict) :
  (exists d, make_dc_from_toml subprocess_run data = ("", Return d))
  <-> Forall (fun kv => exists r, render subprocess_run (fst kv) (snd kv) = Return r)
             data.
Proof.
  unfold make_dc_from_toml. split.
  - intros [d H].
    destruct (loop subprocess_run data loop_start) as [err [st|e]] eqn:El;
      [|discriminate H].
    exact (loop_renders_all _ _ _ _ _ El).
  - intros H. destruct (loop_total subprocess_run data loop_start H) as [st ->].
    eexists. reflexivity.
Qed.

Lemma run_returns_iff_all_render_witness :
  exists d,
    make_dc_from_toml (fun _ => mkCompletedProcess 0 (Mapping []))
      [("a", VDict [("envs", VStr "MODE=prod")])] = ("", Return d).
Proof.
  apply (proj2 (run_returns_iff_all_render (fun _ => mkCompletedProcess 0 (Mapping []))
                  [("a", VDict [("envs", VStr "MODE=prod")])])).
  constructor; [eexists; reflexivity|constructor].
Defined.

Lemma dict_has_app_one (d : dict) (k k' : string) (v : value) :
  dict_has (d ++ [(k, v)])%list k' = dict_has d k' || (k =? k').
Proof.
  induction d as [|[k0 v0] d IH]; simpl; [now rewrite orb_false_r|].
  now rewrite IH, orb_assoc.
Qed.

Lemma loop_services (subprocess_run : string -> CompletedProcess)
    (data : dict) (st st' : loop_state) (err : string) :
  loop subprocess_run data st = (err, Return st') ->
  NoDup (map fst data) ->
  (forall k, In k (map fst data) -> dict_has (services (dc st)) k = false) ->
  exists outs,
    services (dc st') = (services (dc st) ++ outs)%list
    /\ Forall2 (fun kv out =>
                  fst out = fst kv
                  /\ exists r, render subprocess_run (fst kv) (snd kv) = Return r
                               /\ snd out = VDict r)
               data outs.
Proof.
  revert st st' err.
  induction data as [|[service entry] data IH]; intros st st' err; simpl.
  - intros [= <- <-] _ _. exists []. split; [now rewrite app_nil_r|constructor].
  - destruct (loop_body subprocess_run st service entry) as [err1 [st1|e]] eqn:Eb;
      [|intros H; discriminate H].
    destruct (loop_body_returns _ _ _ _ _ _ Eb)
      as (_ & rendered & Hr & _ & _ & Hserv & _).
    destruct (loop subprocess_run data st1) as [err2 [st2|e]] eqn:El;
      [|intros H; discriminate H].
    intros [= <- <-] Hnd Hfresh. inversion Hnd as [|? ? Hk Hnd']; subst.
    rewrite dict_set_fresh in Hserv by (apply Hfresh; now left).
    destruct (IH _ _ _ El Hnd') as (outs & Houts & Hall).
    + intros k Hin. rewrite Hserv, dict_has_app_one.
      rewrite Hfresh by (now right). cbn [orb].
      apply String.eqb_neq. intros ->. contradiction.
    + exists ((service, VDict rendered) :: outs). split.
      * rewrite Houts, Hserv, <- app_assoc. reflexivity.
      * constructor; [|exact Hall]. cbn [fst snd]. split; [reflexivity|].
        exists rendered. split; [exact Hr|reflexivity].
Qed.

(** X16: in the document of a run that returns, over a source document
    with distinct service names, the services are those of the source, in
    the same order, each with its own rendered mapping, and the version is
    [3.8]. *)
Theorem services_follow_document (subprocess_run : string -> CompletedProcess)
    (data : dict) (d : DockerCompose) :
  NoDup (map fst data) ->
  snd (make_dc_from_toml subprocess_run data) = Return d ->
  version d = "3.8"
  /\ Forall2 (fun kv out =>
                fst out = fst kv
                /\ exists r, render subprocess_run (fst kv) (snd kv) = Return r
                             /\ snd out = VDict r)
             data (services d).
Proof.
  intros Hnd H. destruct (make_dc_from_toml_returns _ _ _ H) as (st & El & <-).
  destruct (loop_returns _ _ _ _ _ El) as (_ & _ & _ & _ & Hv).
  split; [exact Hv|].
  destruct (loop_services _ _ _ _ _ El Hnd) as (outs & Houts & Hall).
  - intros k _. reflexivity.
  - rewrite Houts. exact Hall.
Qed.

Lemma services_follow_document_witness :
  let subprocess_run := fun _ : string => mkCompletedProcess 0 (Mapping []) in
  let data := [("a", VDict [("image", VStr "nginx")]); ("b", VDict [])] in
  let d := match snd (make_dc_from_toml subprocess_run data) with
           | Return d => d
           | Raise _ => DockerCompose_default
           end in
  version d = "3.8" /\ map fst (services d) = ["a"; "b"].
Proof.
  intros subprocess_run data d.
  assert (Hnd : NoDup (map fst data)) by distinct_keys.
  destruct (services_follow_document subprocess_run data d Hnd eq_refl) as [Hv _].
  split; [exact Hv|reflexivity].
Defined.





(** X18: in the output of a run that returns, the [networks] block is
    there exactly when the source document has no service or its first
    service is attached to the shared network; the services after the
    first have no say. *)
Theorem networks_block_iff_first_service (subprocess_run : string -> CompletedProcess)
    (data : dict) (d : DockerCompose) :
  snd (make_dc_from_toml subprocess_run data) = Return d ->
  (In "networks" (block_names d) <->
   data = [] \/ exists kv rest, data = kv :: rest /\ entry_attached subprocess_run kv = true)
  /\ (networks d = [] \/ networks d = networks DockerCompose_default).
Proof.
  intros H. rewrite block_names_spec. destruct data as [|kv rest].
  - injection H as <-. split; [|now right]. split; [now left|].
    intros _. cbn. tauto.
  - rewrite (make_dc_from_toml_networks _ _ _ _ H).
    destruct (entry_attached subprocess_run kv) eqn:E.
    + split; [|now right]. split.
      * intros _. right. exists kv, rest. now split.
      * intros _. cbn. tauto.
    + split; [|now left]. split.
      * cbn. intros [H0|[H0|[]]]; discriminate H0.
      * intros [H0|(kv' & rest' & H0 & H1)]; [discriminate H0|].
        injection H0 as <- <-. congruence.
Qed.

Lemma networks_block_iff_first_service_witness :
  let subprocess_run := fun _ : string => mkCompletedProcess 0 (Mapping []) in
  let data := [("a", VDict [("public", VStr "a.test")]); ("b", VDict [])] in
  let d := match snd (make_dc_from_toml subprocess_run data) with
           | Return d => d
           | Raise _ => DockerCompose_default
           end in
  In "networks" (block_names d).
Proof.
  intros subprocess_run data d.
  apply (proj1 (networks_block_iff_first_service subprocess_run data d eq_refl)).
  right. exists ("a", VDict [("public", VStr "a.test")]), [("b", VDict [])].
  split; reflexivity.
Defined.

(** ** The command line *)

(** X19: [main] writes the destination file in one case only: the source
    file exists, the destination is not [-], it is missing or not newer
    than the source, and the run returned a document; the file is then the
    serialized document and the process ends normally.  With a missing
    source file nothing is written but the line that says so, and the
    status is [-1], whatever the arguments. *)
Theorem main_writes_only_when_due (yaml_dump : dict -> string)
    (subprocess_run : string -> CompletedProcess)
    (argv : list string) (fs : filesystem) (data : dict) :
  let output := match tl argv with
                | [] => DEFAULT_OUTPUT
                | args => join " " args
                end in
  let p := main yaml_dump subprocess_run argv fs data in
  (forall path text,
      written_file p = Some (path, text) ->
      src_exists fs = true
      /\ output <> "-"
      /\ dst_exists fs output && dst_newer fs output = false
      /\ path = path_text fs output
      /\ ended p = Return tt
      /\ exists d,
          make_dc_from_toml subprocess_run data = ("", Return d)
          /\ text = to_yaml yaml_dump d)
  /\ (src_exists fs = false ->
      p = mkProcess ("Services: services.toml not found" ++ nl) "" None
                    (Raise (SystemExit (-1)))).
Proof.
  intros output p. subst p. unfold main. fold output. split.
  - intros path text. destruct (src_exists fs); cbn [negb]; [|discriminate].
    destruct (output =? "-") eqn:Eo; cbn [negb andb].
    + unfold main_generate.
      destruct (make_dc_from_toml subprocess_run data) as [err [d|e]];
        [rewrite Eo|]; discriminate.
    + destruct (dst_exists fs output && dst_newer fs output) eqn:Ed; [discriminate|].
      unfold main_generate.
      destruct (make_dc_from_toml subprocess_run data) as [err [d|e]] eqn:Em;
        [rewrite Eo|discriminate].
      cbn [written_file ended]. intros [= <- <-].
      split; [reflexivity|]. split; [now apply String.eqb_neq|].
      split; [reflexivity|]. split; [reflexivity|]. split; [reflexivity|].
      exists d. split; [|reflexivity].
      assert (Hs : snd (make_dc_from_toml subprocess_run data) = Return d)
        by (now rewrite Em).
      destruct (make_dc_from_toml_returns _ _ _ Hs) as (st & El & Hd).
      unfold make_dc_from_toml in Em. rewrite El in Em. now injection Em as <- _.
  - intros ->. reflexivity.
Qed.

Lemma main_writes_only_when_due_witness :
  let fs := mkFilesystem false (fun s => s) (fun _ => false) (fun _ => false) in
  main (fun _ => "") (fun _ => mkCompletedProcess 0 (Mapping [])) ["trado"; "out.yml"] fs []
  = mkProcess ("Services: services.toml not found" ++ nl) "" None
              (Raise (SystemExit (-1))).
Proof.
  intros fs.
  exact (proj2 (main_writes_only_when_due (fun _ => "")
                  (fun _ => mkCompletedProcess 0 (Mapping [])) ["trado"; "out.yml"] fs [])
               eq_refl).
Defined.
